(** * affinity-ev-updater: the webhook handler of api/affinity-ev.js

    A shallow embedding of the handler and of the part of the JavaScript
    runtime it relies on (numbers, coercions, property access), followed by
    the properties of the specification. *)

From Stdlib Require Import ZArith QArith Qround Qabs Qpower Qreduction.
From Stdlib Require Import List String Ascii Bool Lia DecimalString SpecFloat.
Import ListNotations.

Set Warnings "-register-all".

Local Open Scope Z_scope.

(** ** JavaScript numbers

    A Number is an IEEE 754 binary64 value.  A finite one is held as the
    rational it denotes; every arithmetic operation computes the exact
    rational result and rounds it to the nearest binary64 value, ties to
    even, as IEEE 754 prescribes.  The two zeros are identified: the handler
    observes a number only through comparisons, arithmetic with the non-zero
    constant divisors 2 and 100, String() and JSON serialisation, and none
    of these tells -0 from +0. *)

Module Num.

Inductive num : Type :=
| NaN
| Inf (negative : bool)
| Fin (q : Q).

(** floor(log2 a) for a rational a > 0 *)
Definition ilog2 (a : Q) : Z :=
  let l := Z.log2 (Qnum a) - Z.log2 (Zpos (Qden a)) in
  if Qle_bool (2 ^ l)%Q a then l else l - 1.

(** nearest integer, ties to the even one *)
Definition rne (x : Q) : Z :=
  let f := Qfloor x in
  match Qcompare (x - inject_Z f) (1 # 2) with
  | Lt => f
  | Gt => f + 1
  | Eq => if Z.even f then f else f + 1
  end.

(** 2^1024 - 2^970: magnitudes from here on round to an infinity *)
Definition overflow_threshold : Q := inject_Z (2 ^ 1024 - 2 ^ 970).

(** round-to-nearest, ties-to-even, into binary64
    (53 significant bits, least exponent -1074) *)
Definition rnd (q : Q) : num :=
  if Qeq_bool q 0 then Fin 0
  else
    let a := Qabs q in
    if Qle_bool overflow_threshold a then Inf (Qle_bool q 0)
    else
      let e := Z.max (ilog2 a - 52) (-1074) in
      let n := rne (a / 2 ^ e)%Q in
      let r := (inject_Z n * 2 ^ e)%Q in
      Fin (Qred (if Qle_bool q 0 then - r else r)).

Definition of_Z (z : Z) : num := rnd (inject_Z z).

Definition is_nan (x : num) : bool :=
  match x with NaN => true | _ => false end.

(** Number.isFinite *)
Definition isFinite (x : num) : bool :=
  match x with Fin _ => true | _ => false end.

(** x + y *)
Definition add (x y : num) : num :=
  match x, y with
  | NaN, _ | _, NaN => NaN
  | Inf s, Inf t => if Bool.eqb s t then Inf s else NaN
  | Inf s, Fin _ | Fin _, Inf s => Inf s
  | Fin a, Fin b => rnd (a + b)
  end.

(** x * y *)
Definition mul (x y : num) : num :=
  match x, y with
  | NaN, _ | _, NaN => NaN
  | Inf s, Inf t => Inf (xorb s t)
  | Inf s, Fin b | Fin b, Inf s =>
      if Qeq_bool b 0 then NaN else Inf (xorb s (Qle_bool b 0))
  | Fin a, Fin b => rnd (a * b)
  end.

(** x / d for a positive integer literal d *)
Definition div_lit (x : num) (d : positive) : num :=
  match x with
  | Fin a => rnd (a / inject_Z (Zpos d))
  | _ => x
  end.

(** x < y; false as soon as one side is NaN *)
Definition ltb (x y : num) : bool :=
  match x, y with
  | NaN, _ | _, NaN => false
  | Inf s, Inf t => s && negb t
  | Inf s, Fin _ => s
  | Fin _, Inf t => negb t
  | Fin a, Fin b => negb (Qle_bool b a)
  end.

(** x <= y; false as soon as one side is NaN *)
Definition leb (x y : num) : bool :=
  match x, y with
  | NaN, _ | _, NaN => false
  | Inf s, Inf t => s || negb t
  | Inf s, Fin _ => s
  | Fin _, Inf t => negb t
  | Fin a, Fin b => Qle_bool a b
  end.

(** x === y on numbers; NaN differs from everything *)
Definition eqb (x y : num) : bool :=
  match x, y with
  | Inf s, Inf t => Bool.eqb s t
  | Fin a, Fin b => Qeq_bool a b
  | _, _ => false
  end.

(** Math.min(x, y) and Math.max(x, y) *)
Definition min (x y : num) : num :=
  if is_nan x || is_nan y then NaN else if ltb y x then y else x.

Definition max (x y : num) : num :=
  if is_nan x || is_nan y then NaN else if ltb x y then y else x.

(** Math.round: the closest integer, the larger one on a tie *)
Definition round (x : num) : num :=
  match x with
  | Fin q => Fin (inject_Z (Qfloor (q + (1 # 2))))
  | _ => x
  end.

End Num.

Import Num.

(** the operations of the Standard Library's reference implementation of
    IEEE 754 (SpecFloat, at precision 53 and maximal exponent 1024), against
    which the operations above are checked on sample values *)
Module Reference.

Definition of_spec (x : spec_float) : num :=
  match x with
  | S754_zero _ => Fin 0
  | S754_infinity s => Inf s
  | S754_nan => NaN
  | S754_finite s m e =>
      Fin (Qred ((if s then -1 else 1) * inject_Z (Zpos m) * 2 ^ e)%Q)
  end.

Definition same (x y : num) : bool :=
  match x, y with
  | NaN, NaN => true
  | Inf s, Inf t => Bool.eqb s t
  | Fin a, Fin b => Qeq_bool a b
  | _, _ => false
  end.

(** the binary64 value m * 2^e *)
Definition b64 (m e : Z) : spec_float := binary_normalize 53 1024 m e false.

(** small integers, 0.29, 0.1, halves, the largest finite value, the
    smallest and other subnormal values, 2^53 - 1, infinities and NaN *)
Definition samples : list spec_float :=
  [b64 0 0; b64 1 0; b64 3 0; b64 (-5) 0; b64 29 0; b64 50 0; b64 100 0;
   b64 5224175567749775 (-54); b64 3602879701896397 (-55); b64 (-5) (-1);
   b64 9007199254740991 971; b64 1 (-1074); b64 4503599627370497 (-1074);
   b64 9007199254740991 0; b64 300305 0;
   S754_infinity false; S754_infinity true; S754_nan].

Definition agree : bool :=
  forallb
    (fun x =>
       same (of_spec (SFdiv 53 1024 x (b64 100 0))) (div_lit (of_spec x) 100)
       && same (of_spec (SFdiv 53 1024 x (b64 2 0))) (div_lit (of_spec x) 2)
       && forallb
            (fun y =>
               same (of_spec (SFmul 53 1024 x y)) (mul (of_spec x) (of_spec y))
               && same (of_spec (SFadd 53 1024 x y))
                       (add (of_spec x) (of_spec y))
               && Bool.eqb (SFltb x y) (Num.ltb (of_spec x) (of_spec y))
               && Bool.eqb (SFeqb x y) (Num.eqb (of_spec x) (of_spec y)))
            samples)
    samples.

End Reference.

(** ** Strings

    A JavaScript string is held as the byte string of its UTF-8 encoding. *)

Module Str.

Definition byte (c : ascii) : Z := Z.of_nat (nat_of_ascii c).

(** the white space and line terminator characters that StringToNumber
    strips, as UTF-8 byte sequences: TAB LF VT FF CR SP, U+00A0, U+1680,
    U+2000..U+200A, U+2028, U+2029, U+202F, U+205F, U+3000, U+FEFF *)
Definition ws1 (a : ascii) : bool :=
  let n := byte a in ((9 <=? n) && (n <=? 13)) || (n =? 32).

Definition ws2 (a b : ascii) : bool :=
  (byte a =? 194) && (byte b =? 160).

Definition ws3 (a b c : ascii) : bool :=
  let x := byte a in let y := byte b in let z := byte c in
  ((x =? 225) && (y =? 154) && (z =? 128))
  || ((x =? 226) && (y =? 128)
      && (((128 <=? z) && (z <=? 138))
          || (z =? 168) || (z =? 169) || (z =? 175)))
  || ((x =? 226) && (y =? 129) && (z =? 159))
  || ((x =? 227) && (y =? 128) && (z =? 128))
  || ((x =? 239) && (y =? 187) && (z =? 191)).

Fixpoint trim_start (l : list ascii) : list ascii :=
  match l with
  | a :: r1 =>
      if ws1 a then trim_start r1
      else
        match r1 with
        | b :: r2 =>
            if ws2 a b then trim_start r2
            else
              match r2 with
              | c :: r3 => if ws3 a b c then trim_start r3 else l
              | [] => l
              end
        | [] => l
        end
  | [] => []
  end.

(** the same from the end, on the reversed byte list *)
Fixpoint trim_start_rev (l : list ascii) : list ascii :=
  match l with
  | c :: r1 =>
      if ws1 c then trim_start_rev r1
      else
        match r1 with
        | b :: r2 =>
            if ws2 b c then trim_start_rev r2
            else
              match r2 with
              | a :: r3 => if ws3 a b c then trim_start_rev r3 else l
              | [] => l
              end
        | [] => l
        end
  | [] => []
  end.

Definition trim (l : list ascii) : list ascii :=
  rev (trim_start_rev (rev (trim_start l))).

(** the value of a digit in the given radix *)
Definition digit (radix : Z) (c : ascii) : option Z :=
  let n := byte c in
  let v := if (48 <=? n) && (n <=? 57) then n - 48
           else if (97 <=? n) && (n <=? 102) then n - 87
           else if (65 <=? n) && (n <=? 70) then n - 55
           else radix in
  if v <? radix then Some v else None.

(** reads the longest run of digits: its value, its length, the rest *)
Fixpoint digits (radix : Z) (l : list ascii) (acc : Z) (len : Z)
  : Z * Z * list ascii :=
  match l with
  | c :: r =>
      match digit radix c with
      | Some v => digits radix r (acc * radix + v) (len + 1)
      | None => (acc, len, l)
      end
  | [] => (acc, len, [])
  end.

(** ExponentPart, optional: None when what follows is not well formed *)
Definition exponent (l : list ascii) : option Z :=
  match l with
  | [] => Some 0
  | c :: r =>
      if Ascii.eqb c "e" || Ascii.eqb c "E" then
        let '(neg, r') :=
          match r with
          | "+"%char :: r' => (false, r')
          | "-"%char :: r' => (true, r')
          | _ => (false, r)
          end in
        match digits 10 r' 0 0 with
        | (x, len, []) =>
            if 0 <? len then Some (if neg then - x else x) else None
        | _ => None
        end
      else None
  end.

Definition scale10 (m : Z) (e : Z) : Q :=
  if 0 <=? e then inject_Z (m * 10 ^ e)
  else (m # Z.to_pos (10 ^ (- e)))%Q.

(** StrUnsignedDecimalLiteral other than Infinity: its mathematical value *)
Definition unsigned_decimal (l : list ascii) : option Q :=
  let '(i, ni, r) := digits 10 l 0 0 in
  let '(f, nf, r') :=
    match r with
    | "."%char :: r1 => digits 10 r1 0 0
    | _ => (0, 0, r)
    end in
  let dotted := match r with "."%char :: _ => true | _ => false end in
  if (0 <? ni) || (dotted && (0 <? nf)) then
    match exponent r' with
    | Some x => Some (scale10 (i * 10 ^ nf + f) (x - nf))
    | None => None
    end
  else None.

Definition prefixed (radix : Z) (l : list ascii) : num :=
  match digits radix l 0 0 with
  | (v, len, []) => if 0 <? len then of_Z v else NaN
  | _ => NaN
  end.

Definition unsigned (neg : bool) (l : list ascii) : num :=
  if list_eq_dec ascii_dec l (list_ascii_of_string "Infinity") then Inf neg
  else
    match unsigned_decimal l with
    | Some q => rnd (if neg then - q else q)
    | None => NaN
    end.

(** StringToNumber *)
Definition to_number (s : string) : num :=
  match trim (list_ascii_of_string s) with
  | [] => Fin 0
  | "0"%char :: "x"%char :: r | "0"%char :: "X"%char :: r => prefixed 16 r
  | "0"%char :: "o"%char :: r | "0"%char :: "O"%char :: r => prefixed 8 r
  | "0"%char :: "b"%char :: r | "0"%char :: "B"%char :: r => prefixed 2 r
  | "+"%char :: r => unsigned false r
  | "-"%char :: r => unsigned true r
  | l => unsigned false l
  end.

Local Open Scope string_scope.

(** decimal digits of a natural number *)
Definition of_Z (z : Z) : string :=
  NilZero.string_of_uint (N.to_uint (Z.to_N z)).

Fixpoint zeros (n : nat) : string :=
  match n with O => EmptyString | S k => "0" ++ zeros k end.

Definition lower (c : ascii) : ascii :=
  let n := byte c in
  if ((65 <=? n) && (n <=? 90))%Z then ascii_of_nat (Z.to_nat (n + 32)) else c.

(** String.prototype.toLowerCase, on the ASCII letters: its one use looks
    for an ASCII needle, which the lower-casing of other letters can
    neither produce nor break *)
Fixpoint toLowerCase (s : string) : string :=
  match s with
  | EmptyString => EmptyString
  | String c r => String (lower c) (toLowerCase r)
  end.

(** String.prototype.includes *)
Fixpoint includes (s needle : string) : bool :=
  prefix needle s ||
  match s with
  | EmptyString => false
  | String _ r => includes r needle
  end.

Definition pow10 (e : Z) : Q := scale10 1 e.

(** floor(log10 a) for a > 0 of binary64 magnitude *)
Definition ilog10 (a : Q) : Z :=
  let est := (ilog2 a * 30103) / 100000 in
  (if Qle_bool (pow10 (est + 1)) a then est + 1
   else if Qle_bool (pow10 est) a then est
   else est - 1)%Z.

(** a k-digit decimal s with s * 10^(n-k) rounding to a, the closest one
    when both neighbours do *)
Definition candidate (a : Q) (n k : Z) : option Z :=
  let x := (a * pow10 (k - n))%Q in
  let lo := Qfloor x in
  let hi := lo + 1 in
  let ok s := match rnd (scale10 s (n - k)) with
              | Fin r => Qeq_bool r a
              | _ => false
              end in
  match ok lo, ok hi with
  | true, true =>
      Some (if Qle_bool (x - inject_Z lo) (inject_Z hi - x) then lo else hi)
  | true, false => Some lo
  | false, true => Some hi
  | false, false => None
  end.

(** the least number of digits k (and the digits s) that denote a *)
Fixpoint shortest (a : Q) (n k : Z) (fuel : nat) : Z * Z :=
  match fuel with
  | O => (Qfloor (a * pow10 (k - n)), k)
  | S fuel' =>
      match candidate a n k with
      | Some s => (s, k)
      | None => shortest a n (k + 1) fuel'
      end
  end.

Definition sci (ds : string) (k e : Z) : string :=
  let mant :=
    if (k =? 1)%Z then ds
    else substring 0 1 ds ++ "." ++ substring 1 (Z.to_nat (k - 1)) ds in
  mant ++ "e" ++ (if (0 <=? e)%Z then "+" else "-") ++ of_Z (Z.abs e).

(** Number::toString, radix 10, of a positive finite number *)
Definition of_positive (a : Q) : string :=
  let n0 := ilog10 a + 1 in
  let '(s0, k0) := shortest a n0 1 17 in
  let '(s, k, n) :=
    if (s0 =? 10 ^ k0)%Z then (1, 1, n0 + 1) else (s0, k0, n0) in
  let ds := of_Z s in
  if ((k <=? n) && (n <=? 21))%Z then ds ++ zeros (Z.to_nat (n - k))
  else if ((0 <? n) && (n <=? 21))%Z then
    substring 0 (Z.to_nat n) ds ++ "." ++
    substring (Z.to_nat n) (Z.to_nat (k - n)) ds
  else if ((-6 <? n) && (n <=? 0))%Z then "0." ++ zeros (Z.to_nat (- n)) ++ ds
  else sci ds k (n - 1).

(** Number::toString, radix 10 *)
Definition of_num (x : num) : string :=
  match x with
  | NaN => "NaN"
  | Inf false => "Infinity"
  | Inf true => "-Infinity"
  | Fin q =>
      if Qeq_bool q 0 then "0"
      else if Qle_bool q 0 then "-" ++ of_positive (Qabs q)
      else of_positive q
  end.

End Str.

(** ** Values, coercions and property access *)

Local Open Scope string_scope.
Local Open Scope Z_scope.

Inductive value : Type :=
| VUndefined
| VNull
| VBool (b : bool)
| VNum (n : num)
| VStr (s : string)
| VArr (items : list value)
| VObj (props : list (string * value)).

(** an HTTP response as the client hands it over: status and parsed body *)
Record Response : Type := mkResponse { status : Z; data : value }.

(** a thrown Error; [response] is set on the errors of the HTTP client
    that carry the response of the remote side *)
Record JsError : Type := mkError {
  message : string;
  response : option Response
}.

Definition TypeError (msg : string) : JsError := mkError msg None.

(** the outcome of an evaluation that may throw *)
Inductive result (A : Type) : Type :=
| Ok (a : A)
| Raise (e : JsError).
Arguments Ok {A} a.
Arguments Raise {A} e.

Definition rbind {A B} (r : result A) (k : A -> result B) : result B :=
  match r with
  | Ok a => k a
  | Raise e => Raise e
  end.

Module JS.

Definition nullish (v : value) : bool :=
  match v with VUndefined | VNull => true | _ => false end.

(** ToBoolean *)
Definition truthy (v : value) : bool :=
  match v with
  | VUndefined | VNull => false
  | VBool b => b
  | VNum n => negb (is_nan n || Num.eqb n (Fin 0))
  | VStr s => negb (String.eqb s "")
  | VArr _ | VObj _ => true
  end.

Fixpoint join (l : list string) : string :=
  match l with
  | [] => ""
  | [x] => x
  | x :: r => x ++ "," ++ join r
  end.

(** ToString and ToNumber: the string and the number that String(v) and
    Number(v) give when the conversion of v to a primitive returns.  An
    array is converted by join, a plain object by Object.prototype.toString *)
Fixpoint ToString (v : value) : string :=
  match v with
  | VUndefined => "undefined"
  | VNull => "null"
  | VBool b => if b then "true" else "false"
  | VNum n => Str.of_num n
  | VStr s => s
  | VArr items =>
      join (map (fun x => if nullish x then "" else ToString x) items)
  | VObj _ => "[object Object]"
  end.

Definition ToNumber (v : value) : num :=
  match v with
  | VUndefined => NaN
  | VNull => Fin 0
  | VBool b => if b then Fin 1 else Fin 0
  | VNum n => n
  | VStr s => Str.to_number s
  | VArr _ => Str.to_number (ToString v)
  | VObj _ => NaN
  end.

(** whether the object has a field of its own with the name *)
Definition has_own (k : string) (props : list (string * value)) : bool :=
  existsb (fun kv => String.eqb k (fst kv)) props.

(** whether the conversion of v to a primitive returns.  It calls the
    methods toString and valueOf of an object.  A field toString of a
    parsed object holds a JSON value, which cannot be called, and hides
    Object.prototype.toString, while Object.prototype.valueOf returns the
    object itself: no primitive is found and the conversion throws.  A
    field valueOf alone leaves toString in place.  An array is converted by
    join, which converts each element other than null and undefined. *)
Fixpoint converts (v : value) : bool :=
  match v with
  | VArr items => forallb (fun x => nullish x || converts x) items
  | VObj props => negb (has_own "toString" props)
  | _ => true
  end.

(** a conversion applied to any value: [f v] when the conversion of v to a
    primitive returns, and the TypeError of that conversion when it does
    not *)
Definition converting {A} (f : value -> A) (v : value) : result A :=
  if converts v then Ok (f v)
  else Raise (TypeError "Cannot convert object to primitive value").

(** String(v) *)
Definition String (v : value) : result string := converting ToString v.

(** Number(v) *)
Definition Number (v : value) : result num := converting ToNumber v.

Fixpoint lookup (k : string) (props : list (string * value)) : value :=
  match props with
  | [] => VUndefined
  | (k', v) :: r => if String.eqb k k' then v else lookup k r
  end.

(** [v.k] for the names the handler reads (body, data, list_entry_id,
    listEntryId, field, list_id, id, value): none is an array index,
    [length] or a member of a built-in prototype, so on anything but a
    plain object the read yields undefined, and on null and undefined
    it throws *)
Definition get (v : value) (k : string) : result value :=
  match v with
  | VUndefined | VNull =>
      Raise (TypeError ("Cannot read properties of " ++ ToString v
                        ++ " (reading '" ++ k ++ "')"))
  | VObj props => Ok (lookup k props)
  | _ => Ok VUndefined
  end.

(** [v?.k] *)
Definition get_opt (v : value) (k : string) : value :=
  match v with
  | VObj props => lookup k props
  | _ => VUndefined
  end.

(** [a ?? b] with the right operand already evaluated *)
Definition coalesce (a b : value) : value := if nullish a then b else a.

(** [a || b] with the right operand already evaluated *)
Definition or (a b : value) : value := if truthy a then a else b.

(** whether Object.keys(v).length is non-zero *)
Definition has_keys (v : value) : result bool :=
  match v with
  | VUndefined | VNull =>
      Raise (TypeError "Cannot convert undefined or null to object")
  | VObj props => Ok (negb (Nat.eqb (List.length props) 0))
  | VArr items => Ok (negb (Nat.eqb (List.length items) 0))
  | VStr s => Ok (negb (String.eqb s ""))
  | VBool _ | VNum _ => Ok false
  end.

Fixpoint set_prop (k : string) (v : value) (props : list (string * value))
  : list (string * value) :=
  match props with
  | [] => [(k, v)]
  | (k', v') :: r =>
      if String.eqb k k' then (k, v) :: r else (k', v') :: set_prop k v r
  end.

(** Object.fromEntries on string pairs: a later pair replaces the value of
    an earlier one with the same key *)
Definition fromEntries (pairs : list (string * string)) : value :=
  VObj (fold_left (fun o kv => set_prop (fst kv) (VStr (snd kv)) o) pairs []).

(** new Map(pairs).get(k): the last pair with the key decides *)
Definition Map_get (pairs : list (string * value)) (k : string) : value :=
  lookup k (rev pairs).

End JS.

Import JS.

Notation "'let?' x ':=' e 'in' k" := (rbind e (fun x => k))
  (at level 10, x name, e at level 100, k at level 200).

(** Array.prototype.map with a callback that may throw *)
Fixpoint map_result {A B} (f : A -> result B) (l : list A) : result (list B) :=
  match l with
  | [] => Ok []
  | a :: r =>
      let? b := f a in
      let? bs := map_result f r in
      Ok (b :: bs)
  end.

(** ** The handler's suspension points

    The handler awaits HTTP requests of the client V2 and timers.  A
    program is the tree of what it does next; the remote side is an
    environment that answers the i-th request. *)

Inductive Request : Type :=
| GET (url : string)
| POST (url : string) (payload : value).

(** what comes back on the wire: a response, or no response at all
    (network failure, timeout) *)
Inductive Wire : Type :=
| Replied (r : Response)
| Failed (msg : string).

Inductive Prog (A : Type) : Type :=
| Ret (a : A)
| Throw (e : JsError)
| Await (rq : Request) (k : Wire -> Prog A)
| Timer (ms : Z) (k : Prog A).
Arguments Ret {A} a.
Arguments Throw {A} e.
Arguments Await {A} rq k.
Arguments Timer {A} ms k.

Fixpoint bind {A B} (p : Prog A) (f : A -> Prog B) : Prog B :=
  match p with
  | Ret a => f a
  | Throw e => Throw e
  | Await rq k => Await rq (fun w => bind (k w) f)
  | Timer ms k => Timer ms (bind k f)
  end.

(** try { p } catch (e) { h e } *)
Fixpoint try_catch {A} (p : Prog A) (h : JsError -> Prog A) : Prog A :=
  match p with
  | Ret a => Ret a
  | Throw e => h e
  | Await rq k => Await rq (fun w => try_catch (k w) h)
  | Timer ms k => Timer ms (try_catch k h)
  end.

Definition lift {A} (r : result A) : Prog A :=
  match r with
  | Ok a => Ret a
  | Raise e => Throw e
  end.

Notation "'let*' x ':=' e 'in' k" := (bind e (fun x => k))
  (at level 10, x name, e at level 100, k at level 200).

(** what the outside observes of a run *)
Inductive Event : Type :=
| Sent (rq : Request)
| Slept (ms : Z).

(** runs a program against the remote side [env], [i] requests having
    been answered so far *)
Fixpoint run {A} (env : nat -> Wire) (i : nat) (p : Prog A)
  : result A * list Event :=
  match p with
  | Ret a => (Ok a, [])
  | Throw e => (Raise e, [])
  | Await rq k =>
      let '(r, t) := run env (S i) (k (env i)) in (r, Sent rq :: t)
  | Timer ms k =>
      let '(r, t) := run env i k in (r, Slept ms :: t)
  end.

(** ** The HTTP client

    V2 is created by axios.create with a base URL, headers and a timeout and
    no validateStatus, so axios settles each response with its default
    validateStatus (200 <= status < 300): the promise resolves when the
    status is absent (0) or valid and rejects otherwise with an error that
    carries the response; a request without response rejects with an error
    that carries none. *)

Definition validateStatus (st : Z) : bool := (200 <=? st) && (st <? 300).

Definition settle (w : Wire) : Prog Response :=
  match w with
  | Replied r =>
      if (status r =? 0) || validateStatus (status r) then Ret r
      else Throw (mkError ("Request failed with status code "
                           ++ ToString (VNum (Fin (inject_Z (status r)))))
                          (Some r))
  | Failed msg => Throw (mkError msg None)
  end.

Module V2.
Definition get (url : string) : Prog Response := Await (GET url) settle.
Definition post (url : string) (payload : value) : Prog Response :=
  Await (POST url payload) settle.
End V2.

(** sleep(ms) *)
Definition sleep (ms : Z) : Prog unit := Timer ms (Ret tt).

(** ** api/affinity-ev.js *)

Definition LIST_ID : num := Fin 300305.
Definition FID_MIN : string := "field-5140816".
Definition FID_MAX : string := "field-5140817".
Definition FID_P : string := "field-5150465".
Definition FID_EV : string := "field-5305096".
Definition ZERO_AS_MISSING : bool := true.

(** safeNum(x) when Number(x) returns: the number, or null when it is not
    finite.  On a value that Number() cannot convert safeNum throws as
    Number() does, which is [converting safeNum]; the handler calls it so on
    the data of the remote side, and computeEV calls it on numbers and
    null. *)
Definition safeNum (x : value) : option num :=
  let n := ToNumber x in
  if isFinite n then Some n else None.

(** a number-or-null variable read back as a value *)
Definition nullable (o : option num) : value :=
  match o with
  | Some n => VNum n
  | None => VNull
  end.

(** [o === 0] and [o > 0] on a number-or-null variable *)
Definition is_zero (o : option num) : bool :=
  match o with
  | Some n => Num.eqb n (Fin 0)
  | None => false
  end.

Definition positive_num (o : option num) : bool :=
  Num.ltb (Fin 0) (ToNumber (nullable o)).

(** lines 30-33: the zero-as-missing rule on mi and ma *)
Definition zero_as_missing (mi ma : option num) : option num * option num :=
  if ZERO_AS_MISSING then
    let mi' := if is_zero mi && positive_num ma then None else mi in
    let ma' := if is_zero ma && positive_num mi' then None else ma in
    (mi', ma')
  else (mi, ma).

(** line 34: mi != null && ma != null ? (mi + ma) / 2 : (mi ?? ma ?? 0) *)
Definition midpoint (mi ma : option num) : num :=
  match mi, ma with
  | Some a, Some b => div_lit (add a b) 2
  | _, _ =>
      match mi with
      | Some a => a
      | None => match ma with Some b => b | None => Fin 0 end
      end
  end.

(** line 35: Math.max(0, Math.min(100, safeNum(pPct) ?? 0)) / 100 *)
Definition fraction (pPct : value) : num :=
  div_lit
    (Num.max (Fin 0)
       (Num.min (Fin 100)
          (match safeNum pPct with Some x => x | None => Fin 0 end)))
    100.

(** the product m * p of line 36 *)
Definition product (min max pPct : value) : num :=
  let '(mi, ma) := zero_as_missing (safeNum min) (safeNum max) in
  mul (midpoint mi ma) (fraction pPct).

Definition computeEV (min max pPct : value) : num :=
  Num.round (product min max pPct).

(** an inbound request: the content-type header, the body as the platform
    left it (a value, or a Buffer of bytes) and what reading the raw
    stream to its end gives *)
Inductive Body : Type :=
| Parsed (v : value)
| Buffer (utf8 : string).

Record Req : Type := mkReq {
  headers : value;
  body : Body;
  readRawBody : result string
}.

(** what the handler answers: res.status(code).json(json) *)
Record Res : Type := mkRes { code : Z; json : value }.

(** whether process.env.AFFINITY_V2_TOKEN, a string or undefined, is
    truthy *)
Definition configured (token : option string) : bool :=
  truthy (match token with Some s => VStr s | None => VUndefined end).

(** the two parsers of the runtime: JSON.parse, which throws ([None]) on
    text that is not JSON, and the list of pairs of new URLSearchParams *)
Class Runtime : Type := {
  JSON_parse : string -> option value;
  URLSearchParams : string -> list (string * string)
}.

Section Handler.

Context {runtime : Runtime}.

Definition coerceObj (x : value) : value :=
  match x with
  | VStr s =>
      match JSON_parse s with
      | Some v => v
      | None => VObj []
      end
  | _ => if truthy x then x else VObj []
  end.

(** lines 57-81: the outer object of the request *)
Definition read_outer (req : Req) : result value :=
  let? header := String (JS.or (get_opt (headers req) "content-type") (VStr "")) in
  let contentType := Str.toLowerCase header in
  let form := Str.includes contentType "application/x-www-form-urlencoded" in
  let decode (s : string) :=
    if form then fromEntries (URLSearchParams s) else coerceObj (VStr s) in
  match body req with
  | Buffer s => Ok (decode s)
  | Parsed (VStr "") | Parsed VNull | Parsed VUndefined =>
      let? raw := readRawBody req in
      Ok (decode raw)
  | Parsed (VStr s) => Ok (coerceObj (VStr s))
  | Parsed (VObj props) => Ok (VObj props)
  | Parsed (VArr items) => Ok (VArr items)
  | Parsed (VBool _) | Parsed (VNum _) => Ok (VObj [])
  end.

(** lines 84-88: the payload inside the envelope *)
Definition select_payload (outer : value) : result value :=
  let? b := get outer "body" in
  let bodyCandidate := coerceObj b in
  let? d := get outer "data" in
  let dataCandidate := coerceObj d in
  let? has_body := has_keys bodyCandidate in
  if has_body then Ok bodyCandidate
  else
    let? has_data := has_keys dataCandidate in
    if has_data then Ok dataCandidate else Ok outer.

(** lines 90-95 *)
Definition resolve_listEntryId (payload : value) : result string :=
  let? a := get payload "list_entry_id" in
  let? v :=
    if negb (nullish a) then Ok a
    else
      let? b := get payload "listEntryId" in
      if negb (nullish b) then Ok b
      else
        Ok (coalesce (get_opt (get_opt payload "data") "list_entry_id")
              (VStr "")) in
  String v.

(** the operand of Number(...) in line 96 *)
Definition listId_candidate (payload outer : value) : value :=
  coalesce (get_opt (get_opt payload "field") "list_id")
    (coalesce (get_opt payload "list_id")
       (coalesce (get_opt (get_opt outer "field") "list_id")
          (VNum LIST_ID))).

(** line 96 *)
Definition resolve_eventListId (payload outer : value) : result num :=
  Number (listId_candidate payload outer).

Definition fields_url (listEntryId : string) : string :=
  "/lists/" ++ ToString (VNum LIST_ID) ++ "/list-entries/" ++ listEntryId
  ++ "/fields".

(** (resp?.data ?? []).map(f => [String(f.id), f.value?.data]) *)
Definition field_pairs (resp : value) : result (list (string * value)) :=
  match coalesce (get_opt resp "data") (VArr []) with
  | VArr items =>
      map_result
        (fun f =>
           let? id := get f "id" in
           let? key := String id in
           let? v := get f "value" in
           Ok (key, get_opt v "data"))
        items
  | _ => Raise (TypeError "(intermediate value).map is not a function")
  end.

(** lines 121-122: one read of the persisted value *)
Definition read_persisted (url : string) : Prog (option num) :=
  let* after := V2.get url in
  let* pairs := lift (field_pairs (data after)) in
  lift (converting safeNum (Map_get pairs FID_EV)).

(** lines 119-125: the read-back loop, at iteration [i] with [n]
    iterations left; the pause 200 * Math.pow(2, i) is a small integer,
    exact in binary64 *)
Fixpoint verify (url : string) (n : nat) (i : Z) (persisted : option num)
  : Prog (option num) :=
  match n with
  | O => Ret persisted
  | S n' =>
      let* persisted := read_persisted url in
      match persisted with
      | Some _ => Ret persisted
      | None =>
          let* _ := sleep (200 * 2 ^ i) in
          verify url n' (i + 1) persisted
      end
  end.

(** line 115 and line 127: the two answers that follow the write *)
Definition post_ev_failure (listEntryId : string) (min max p : option num)
  (ev : num) (post : Response) : Res :=
  mkRes 200
    (VObj [("ok", VBool false); ("step", VStr "post_ev");
           ("status", VNum (Fin (inject_Z (status post))));
           ("data", data post);
           ("listEntryId", VStr listEntryId);
           ("min", nullable min); ("max", nullable max);
           ("p", nullable p); ("ev", VNum ev)]).

Definition success (listEntryId : string) (min max p : option num)
  (ev : num) (persisted : option num) : Res :=
  mkRes 200
    (VObj [("ok", VBool true); ("listEntryId", VStr listEntryId);
           ("min", nullable min); ("max", nullable max);
           ("p", nullable p); ("ev", VNum ev);
           ("persisted", nullable persisted)]).

(** lines 114-127: what follows the write *)
Definition after_post (listEntryId : string) (min max p : option num)
  (ev : num) (post : Response) : Prog Res :=
  if (status post <? 200) || (300 <=? status post) then
    Ret (post_ev_failure listEntryId min max p ev post)
  else
    let* persisted := verify (fields_url listEntryId) 4 0 None in
    Ret (success listEntryId min max p ev persisted).

(** lines 101-127: read the entry, compute, write, read back *)
Definition sync (listEntryId : string) : Prog Res :=
  let* got := V2.get (fields_url listEntryId) in
  let* fieldMap := lift (field_pairs (data got)) in
  let* min := lift (converting safeNum (Map_get fieldMap FID_MIN)) in
  let* max := lift (converting safeNum (Map_get fieldMap FID_MAX)) in
  let* p := lift (converting safeNum (Map_get fieldMap FID_P)) in
  let ev := computeEV (nullable min) (nullable max) (nullable p) in
  let* post :=
    V2.post (fields_url listEntryId ++ "/" ++ FID_EV)
      (VObj [("value", VObj [("type", VStr "number"); ("data", VNum ev)])]) in
  after_post listEntryId min max p ev post.

(** line 98 and line 99: the two answers that skip the request *)
Definition no_list_entry_id (payload : value) : Res :=
  mkRes 200 (VObj [("skipped", VBool true);
                   ("reason", VStr "no_list_entry_id");
                   ("payload", payload)]).

Definition different_list (eventListId : num) : Res :=
  mkRes 200 (VObj [("skipped", VBool true);
                   ("reason", VStr "different_list");
                   ("eventListId", VNum eventListId)]).

(** lines 43-127: the body of the try block *)
Definition attempt (token : option string) (req : Req) : Prog Res :=
  if negb (configured token) then
    Ret (mkRes 500 (VObj [("ok", VBool false);
                          ("error", VStr "Missing AFFINITY_V2_TOKEN")]))
  else
    let* outer := lift (read_outer req) in
    let* payload := lift (select_payload outer) in
    let* listEntryId := lift (resolve_listEntryId payload) in
    let* eventListId := lift (resolve_eventListId payload outer) in
    if String.eqb listEntryId "" then Ret (no_list_entry_id payload)
    else if negb (Num.eqb eventListId LIST_ID) then
      Ret (different_list eventListId)
    else sync listEntryId.

(** lines 128-132: what the catch block answers *)
Definition on_error (e : JsError) : Res :=
  let status :=
    JS.or (match response e with
           | Some r => VNum (Fin (inject_Z (status r)))
           | None => VUndefined
           end)
          (VNum (Fin 500)) in
  let data :=
    JS.or (match response e with
           | Some r => data r
           | None => VUndefined
           end)
          (VStr (message e)) in
  mkRes 200 (VObj [("ok", VBool false);
                   ("error", VObj [("status", status); ("data", data)])]).

Definition handler (token : option string) (req : Req) : Prog Res :=
  try_catch (attempt token req) (fun e => Ret (on_error e)).

(** lines 57-96, the part of the try block that comes before the two
    tests: the payload, the identifier and the list id *)
Definition front (req : Req) : result (value * string * num) :=
  let? outer := read_outer req in
  let? payload := select_payload outer in
  let? listEntryId := resolve_listEntryId payload in
  let? eventListId := resolve_eventListId payload outer in
  Ok (payload, listEntryId, eventListId).

End Handler.

(** ** The specification's wording, for comparison with the code *)

Module Spec.

(** "if exactly one of (min, max) is zero and the other is strictly
    positive, treat the zero value as missing" *)
Definition zero_as_missing (mi ma : option num) : option num * option num :=
  match mi, ma with
  | Some a, Some b =>
      if Num.eqb a (Fin 0) && Num.ltb (Fin 0) b then (None, Some b)
      else if Num.eqb b (Fin 0) && Num.ltb (Fin 0) a then (Some a, None)
      else (mi, ma)
  | _, _ => (mi, ma)
  end.

(** "both present: (min + max) / 2; exactly one present: that value;
    neither present: 0" *)
Definition midpoint (mi ma : option num) : num :=
  match mi, ma with
  | Some a, Some b => div_lit (add a b) 2
  | Some a, None => a
  | None, Some b => b
  | None, None => Fin 0
  end.

(** "clamp to [0, 100]" *)
Definition clamp (x : num) : num :=
  if Num.leb x (Fin 0) then Fin 0
  else if Num.leb (Fin 100) x then Fin 100
  else x.

(** "clamp to [0, 100], default to 0 if missing/non-numeric,
    divide by 100" *)
Definition likelihoodFraction (pPct : value) : num :=
  div_lit (clamp (match safeNum pPct with Some x => x | None => Fin 0 end)) 100.

(** nearest integer, a tie going to the larger integer *)
Definition nearest_ties_up (q : Q) (n : Z) : Prop :=
  (inject_Z n - (1 # 2) <= q /\ q < inject_Z n + (1 # 2))%Q.

(** nearest integer, a tie going away from zero *)
Definition round_half_away (q : Q) : Z :=
  if Qle_bool 0 q then Qfloor (q + (1 # 2)) else Qceiling (q - (1 # 2)).

(** the first of the candidates that is neither null nor undefined *)
Fixpoint first_present (candidates : list value) (default : value) : value :=
  match candidates with
  | [] => default
  | c :: r => if nullish c then first_present r default else c
  end.

(** "trying, in order, list_entry_id, listEntryId, then
    data.list_entry_id": the candidate that is coerced to the identifier *)
Definition identifier (payload : value) : value :=
  first_present
    [get_opt payload "list_entry_id";
     get_opt payload "listEntryId";
     get_opt (get_opt payload "data") "list_entry_id"]
    (VStr "").

(** the list id a request carries: field.list_id or list_id of the payload,
    field.list_id of the outer object, and the target list when it carries
    none *)
Definition list_id (payload outer : value) : value :=
  first_present
    [get_opt (get_opt payload "field") "list_id";
     get_opt payload "list_id";
     get_opt (get_opt outer "field") "list_id"]
    (VNum LIST_ID).

(** the first of the candidates that is not empty: neither null nor
    undefined nor the empty string *)
Fixpoint first_non_empty (candidates : list value) (default : value) : value :=
  match candidates with
  | [] => default
  | c :: r =>
      if nullish c || negb (truthy (VStr (ToString c)))
      then first_non_empty r default else c
  end.

End Spec.

(** ** Observations on runs *)

(** the number of requests in a trace *)
Fixpoint sent (t : list Event) : nat :=
  match t with
  | [] => O
  | Sent _ :: r => S (sent r)
  | Slept _ :: r => sent r
  end.

(** what the read-back of the persisted value observes when it is the
    i-th request *)
Definition reading (env : nat -> Wire) (i : nat) (url : string)
  : result (option num) :=
  fst (run env i (read_persisted url)).

(** [j] fruitless reads of [url], each followed by its pause, the first
    pause being 200 * 2^i ms *)
Fixpoint backoff (url : string) (i : Z) (j : nat) : list Event :=
  match j with
  | O => []
  | S j' => Sent (GET url) :: Slept (200 * 2 ^ i) :: backoff url (i + 1) j'
  end.

(** the answers of the try block carry an object and the status of the case *)
Definition answer_ok (token : option string) (res : Res) : Prop :=
  (exists props, json res = VObj props)
  /\ code res = if configured token then 200 else 500.

(** every answer a program can return satisfies P *)
Fixpoint returns {A} (P : A -> Prop) (p : Prog A) : Prop :=
  match p with
  | Ret a => P a
  | Throw _ => True
  | Await _ k => forall w, returns P (k w)
  | Timer _ k => returns P k
  end.

(** the GET requests, the POST requests and the total pause of a trace *)
Fixpoint gets (t : list Event) : nat :=
  match t with
  | Sent (GET _) :: r => S (gets r)
  | _ :: r => gets r
  | [] => O
  end.

Fixpoint posts (t : list Event) : nat :=
  match t with
  | Sent (POST _ _) :: r => S (posts r)
  | _ :: r => posts r
  | [] => O
  end.

Fixpoint paused (t : list Event) : Z :=
  match t with
  | Slept ms :: r => ms + paused r
  | _ :: r => paused r
  | [] => 0
  end.

(** on every path the program issues at most [g] GET and [q] POST
    requests and pauses at most [ms] milliseconds in all *)
Fixpoint within {A} (g q : nat) (ms : Z) (p : Prog A) : Prop :=
  match p with
  | Ret _ | Throw _ => 0 <= ms
  | Await (GET _) k =>
      match g with
      | O => False
      | S g' => forall w, within g' q ms (k w)
      end
  | Await (POST _ _) k =>
      match q with
      | O => False
      | S q' => forall w, within g q' ms (k w)
      end
  | Timer d k => 0 <= d /\ within g q (ms - d) k
  end.

(** [x < 0] is false: x is NaN, plus infinity or a finite number that is
    at least 0 *)
Definition not_negative (x : num) : Prop := Num.ltb x (Fin 0) = false.

(** a number-or-null variable that holds no negative number *)
Definition bound_not_negative (o : option num) : Prop :=
  match o with
  | Some n => not_negative n
  | None => True
  end.

(** ** Scenarios *)

Module Example.

(** an instance of the two parsers for the scenarios.  The only texts the
    scenarios hand to JSON.parse are the literal null and a text that is
    not JSON: this JSON.parse knows the literals null, true and false and
    rejects the rest; URLSearchParams is not called *)
Definition runtime : Runtime := {|
  JSON_parse s :=
    if String.eqb s "null" then Some VNull
    else if String.eqb s "true" then Some (VBool true)
    else if String.eqb s "false" then Some (VBool false)
    else None;
  URLSearchParams _ := []
|}.

Definition field (id : string) (v : value) : value :=
  VObj [("id", VStr id);
        ("value", VObj [("type", VStr "number"); ("data", v)])].

(** the fields of an entry: min 50000, max 150000, likelihood 40 and the
    given expected value *)
Definition fields (ev : value) : value :=
  VObj [("data", VArr [field FID_MIN (VNum (Fin 50000));
                       field FID_MAX (VNum (Fin 150000));
                       field FID_P (VNum (Fin 40));
                       field FID_EV ev])].

(** the entry without its expected-value field *)
Definition fields_without_ev : value :=
  VObj [("data", VArr [field FID_MIN (VNum (Fin 50000));
                       field FID_MAX (VNum (Fin 150000));
                       field FID_P (VNum (Fin 40))])].

(** the request of the README: a direct JSON body for entry 215745884 *)
Definition req : Req :=
  mkReq (VObj [("content-type", VStr "application/json")])
        (Parsed (VObj [("list_entry_id", VNum (Fin 215745884));
                       ("field", VObj [("list_id", VNum (Fin 300305))])]))
        (Ok "").

Definition url : string := "/lists/300305/list-entries/215745884/fields".

(** the remote side answers the read, then fails the write with a 500 *)
Definition env_write_500 (i : nat) : Wire :=
  match i with
  | 0%nat => Replied (mkResponse 200 fields_without_ev)
  | 1%nat =>
      Replied (mkResponse 500 (VObj [("message", VStr "Internal error")]))
  | _ => Replied (mkResponse 200 (fields (VNum (Fin 40000))))
  end.

(** the remote side accepts the write and shows the value at once *)
Definition env_visible_at_once (i : nat) : Wire :=
  match i with
  | 0%nat => Replied (mkResponse 200 fields_without_ev)
  | 1%nat => Replied (mkResponse 200 (VObj []))
  | _ => Replied (mkResponse 200 (fields (VNum (Fin 40000))))
  end.

(** the remote side accepts the write and never shows the value *)
Definition env_never_visible (i : nat) : Wire :=
  match i with
  | 1%nat => Replied (mkResponse 200 (VObj []))
  | _ => Replied (mkResponse 200 fields_without_ev)
  end.

(** the remote side shows the written value on the third read-back *)
Definition env_visible_late (i : nat) : Wire :=
  match i with
  | 1%nat => Replied (mkResponse 200 (VObj []))
  | 0%nat | 2%nat | 3%nat => Replied (mkResponse 200 fields_without_ev)
  | _ => Replied (mkResponse 200 (fields (VNum (Fin 40000))))
  end.

(** the envelope of the specification and its body *)
Definition direct : value :=
  VObj [("list_entry_id", VStr "42");
        ("field", VObj [("list_id", VNum (Fin 300305))])].

Definition wrapped : value := VObj [("type", VStr "x"); ("body", direct)].

(** a payload whose first candidate is the empty string *)
Definition empty_first : value :=
  VObj [("list_entry_id", VStr ""); ("listEntryId", VStr "7")].

(** a request for another list, and one whose list id is not a number *)
Definition req_other_list : Req :=
  mkReq (VObj []) (Parsed (VObj [("list_entry_id", VStr "42");
                                 ("list_id", VNum (Fin 7))])) (Ok "").

Definition req_bad_list : Req :=
  mkReq (VObj []) (Parsed (VObj [("list_entry_id", VStr "42");
                                 ("list_id", VStr "abc")])) (Ok "").

Definition req_string_list : Req :=
  mkReq (VObj []) (Parsed (VObj [("list_entry_id", VStr "42");
                                 ("list_id", VStr "300305")])) (Ok "").

Definition req_ping : Req :=
  mkReq (VObj []) (Parsed (VObj [("ping", VBool true)])) (Ok "").

(** an object that String() and Number() cannot convert: {toString: 1} *)
Definition unconvertible : value := VObj [("toString", VNum (Fin 1))].

(** a ping and an event whose list id is that object *)
Definition ping_unconvertible_list : value :=
  VObj [("ping", VBool true); ("list_id", unconvertible)].

Definition req_ping_unconvertible_list : Req :=
  mkReq (VObj []) (Parsed ping_unconvertible_list) (Ok "").

Definition req_unconvertible_list : Req :=
  mkReq (VObj []) (Parsed (VObj [("list_entry_id", VStr "42");
                                 ("list_id", unconvertible)])) (Ok "").

(** an envelope whose body is the JSON text null *)
Definition null_envelope : value :=
  VObj [("type", VStr "x"); ("body", VStr "null")].

Definition req_null_envelope : Req :=
  mkReq (VObj []) (Parsed null_envelope) (Ok "").

(** a body with a data field of its own, and the envelope around it *)
Definition direct_with_data : value :=
  VObj [("list_entry_id", VStr "42"); ("data", VObj [("x", VNum (Fin 1))])].

Definition wrapped_with_data : value :=
  VObj [("type", VStr "x"); ("body", direct_with_data)].

(** the remote side accepts the write, shows the field with the data null
    on the first read-back and the written value from the second on *)
Definition env_null_then_visible (i : nat) : Wire :=
  match i with
  | 0%nat => Replied (mkResponse 200 fields_without_ev)
  | 1%nat => Replied (mkResponse 200 (VObj []))
  | 2%nat => Replied (mkResponse 200 (fields VNull))
  | _ => Replied (mkResponse 200 (fields (VNum (Fin 40000))))
  end.

(** the remote side does not answer the first read *)
Definition env_read_timeout (i : nat) : Wire :=
  match i with
  | 0%nat => Failed "timeout of 30000ms exceeded"
  | _ => Replied (mkResponse 200 (fields (VNum (Fin 40000))))
  end.

(** the remote side accepts the write and does not answer the second
    read-back *)
Definition env_read_back_timeout (i : nat) : Wire :=
  match i with
  | 1%nat => Replied (mkResponse 200 (VObj []))
  | 3%nat => Failed "timeout of 30000ms exceeded"
  | _ => Replied (mkResponse 200 fields_without_ev)
  end.

(** a text body that is not JSON *)
Definition req_malformed : Req :=
  mkReq (VObj [("content-type", VStr "text/plain")])
        (Parsed (VStr "{list_entry_id:")) (Ok "").

End Example.

(** * Properties *)

(** ** Numbers *)

(** on the samples, sums, products, quotients by 2 and by 100 and
    comparisons are those of the reference implementation *)
Lemma agrees_with_reference : Reference.agree = true.
Proof. vm_compute. reflexivity. Qed.

(** StringToNumber and Number::toString on known values *)
Lemma to_number_samples :
  map Str.to_number
    ["300305"; " 42 "; ""; "abc"; "12px"; "0x1F"; "-0x10"; "-1.5e2"; ".5";
     "5."; "."; "1e"; "1_000"; "1e400"; "-Infinity"; "0.29"]
  = [Fin 300305; Fin 42; Fin 0; NaN; NaN; Fin 31; NaN; Fin (-150);
     Fin (1 # 2); Fin 5; NaN; NaN; NaN; Inf false; Inf true;
     Fin (5224175567749775 # 18014398509481984)].
Proof. vm_compute. reflexivity. Qed.

Lemma of_num_samples :
  map (fun s => Str.of_num (Str.to_number s))
    ["215745884"; "0.1"; "1e21"; "1e-7"; "123456789012345680000";
     "0.000001"; "14.499999999999998"; "5e-324"; "1.7976931348623157e308";
     "9007199254740993"; "-0.29"; "0.30000000000000004"]
  = ["215745884"; "0.1"; "1e+21"; "1e-7"; "123456789012345680000";
     "0.000001"; "14.499999999999998"; "5e-324"; "1.7976931348623157e+308";
     "9007199254740992"; "-0.29"; "0.30000000000000004"].
Proof. vm_compute. reflexivity. Qed.

Lemma rnd_zero (q : Q) : Qeq_bool q 0 = true -> rnd q = Fin 0.
Proof. intros H. unfold rnd. now rewrite H. Qed.

Lemma rnd_finite (q : Q) :
  Qle_bool overflow_threshold (Qabs q) = false -> exists r, rnd q = Fin r.
Proof.
  intros H. unfold rnd.
  destruct (Qeq_bool q 0); [now exists 0%Q|].
  rewrite H. eauto.
Qed.

Lemma one_below_threshold : (1 < overflow_threshold)%Q.
Proof. reflexivity. Qed.

Lemma rnd_finite_unit (q : Q) : (0 <= q <= 1)%Q -> exists r, rnd q = Fin r.
Proof.
  intros [H0 H1]. apply rnd_finite.
  destruct (Qle_bool overflow_threshold (Qabs q)) eqn:E; [|reflexivity].
  apply Qle_bool_iff in E. rewrite Qabs_pos in E by assumption.
  exfalso. apply (Qlt_not_le _ _ one_below_threshold).
  now apply Qle_trans with q.
Qed.

Lemma ltb_Fin (a b : Q) : Num.ltb (Fin a) (Fin b) = true <-> (a < b)%Q.
Proof.
  simpl. rewrite negb_true_iff. split; intros H.
  - apply Qnot_le_lt. intros L. apply Qle_bool_iff in L. congruence.
  - destruct (Qle_bool b a) eqn:E; [|reflexivity].
    apply Qle_bool_iff in E. exfalso. now apply (Qlt_not_le _ _ H).
Qed.

Lemma ltb_Fin_false (a b : Q) : Num.ltb (Fin a) (Fin b) = false <-> (b <= a)%Q.
Proof.
  simpl. rewrite negb_false_iff. apply Qle_bool_iff.
Qed.

Lemma positive_not_zero (x : num) :
  Num.ltb (Fin 0) x = true -> Num.eqb x (Fin 0) = false.
Proof.
  destruct x as [| s | q]; try reflexivity.
  intros H. apply ltb_Fin in H. simpl.
  destruct (Qeq_bool q 0) eqn:E; [|reflexivity].
  apply Qeq_bool_iff in E. rewrite E in H. now apply Qlt_irrefl in H.
Qed.

Lemma safeNum_finite (x : value) (n : num) :
  safeNum x = Some n -> exists q, n = Fin q.
Proof.
  unfold safeNum. destruct (ToNumber x) as [| s | q]; simpl; try discriminate.
  intros H. injection H as <-. now exists q.
Qed.

Lemma safeNum_VNum (q : Q) : safeNum (VNum (Fin q)) = Some (Fin q).
Proof. reflexivity. Qed.

(** computeEV coerces its arguments again: a bound that the handler read
    as null enters it as the number 0 *)
Lemma safeNum_nullable (o : option num) :
  (forall n, o = Some n -> exists q, n = Fin q) ->
  safeNum (nullable o)
  = match o with Some n => Some n | None => Some (Fin 0) end.
Proof.
  destruct o as [n|]; [|reflexivity].
  intros H. destruct (H n eq_refl) as [q ->]. reflexivity.
Qed.

(** ** computeEV *)

Lemma round_nearest (q : Q) : Spec.nearest_ties_up q (Qfloor (q + (1 # 2))).
Proof.
  unfold Spec.nearest_ties_up.
  pose proof (Qfloor_le (q + (1 # 2))) as Hle.
  pose proof (Qlt_floor (q + (1 # 2))) as Hlt.
  rewrite inject_Z_plus in Hlt.
  split.
  - apply Qplus_le_l with (z := (1 # 2)%Q). ring_simplify.
    ring_simplify in Hle. exact Hle.
  - apply Qplus_lt_l with (z := (1 # 2)%Q).
    setoid_replace (inject_Z (Qfloor (q + (1 # 2))) + (1 # 2) + (1 # 2))%Q
      with (inject_Z (Qfloor (q + (1 # 2))) + inject_Z 1)%Q by ring.
    exact Hlt.
Qed.

Lemma zero_as_missing_spec (mi ma : option num) :
  zero_as_missing mi ma = Spec.zero_as_missing mi ma.
Proof.
  unfold zero_as_missing, Spec.zero_as_missing, is_zero, positive_num.
  cbn [ZERO_AS_MISSING].
  destruct mi as [a|], ma as [b|]; cbn [nullable ToNumber].
  - destruct (Num.eqb a (Fin 0)) eqn:Ea, (Num.ltb (Fin 0) b) eqn:Lb;
      cbn [andb nullable ToNumber]; rewrite ?Ea, ?Lb.
    + now rewrite (positive_not_zero b Lb).
    + destruct (Num.eqb b (Fin 0)), (Num.ltb (Fin 0) a); reflexivity.
    + destruct (Num.eqb b (Fin 0)), (Num.ltb (Fin 0) a); reflexivity.
    + destruct (Num.eqb b (Fin 0)), (Num.ltb (Fin 0) a); reflexivity.
  - rewrite andb_false_r. reflexivity.
  - cbn [andb nullable ToNumber].
    change (Num.ltb (Fin 0) (Fin 0)) with false.
    now rewrite andb_false_r.
  - reflexivity.
Qed.

Lemma midpoint_spec (mi ma : option num) : midpoint mi ma = Spec.midpoint mi ma.
Proof. destruct mi, ma; reflexivity. Qed.

Lemma clamp_range (x : Q) :
  exists c, Num.max (Fin 0) (Num.min (Fin 100) (Fin x)) = Fin c
            /\ (0 <= c <= 100)%Q.
Proof.
  unfold Num.min. cbn [is_nan orb].
  destruct (Num.ltb (Fin x) (Fin 100)) eqn:E1; unfold Num.max; cbn [is_nan orb].
  - destruct (Num.ltb (Fin 0) (Fin x)) eqn:E2.
    + exists x. split; [reflexivity|].
      apply ltb_Fin in E1, E2. split; now apply Qlt_le_weak.
    + exists 0%Q. split; [reflexivity|]. split; [apply Qle_refl | discriminate].
  - exists 100%Q. split; [reflexivity|]. split; discriminate.
Qed.

Lemma fraction_finite (pPct : value) : exists r, fraction pPct = Fin r.
Proof.
  unfold fraction.
  assert (exists x, match safeNum pPct with Some x => x | None => Fin 0 end
                    = Fin x) as [x ->].
  { destruct (safeNum pPct) as [n|] eqn:E; [|now exists 0%Q].
    now apply safeNum_finite in E. }
  destruct (clamp_range x) as (c & -> & H0 & H100).
  simpl. apply rnd_finite_unit. split.
  - apply Qle_shift_div_l; [reflexivity|]. now rewrite Qmult_0_l.
  - apply Qle_shift_div_r; [reflexivity|]. now rewrite Qmult_1_l.
Qed.

Lemma mul_zero_finite (r : Q) : mul (Fin 0) (Fin r) = Fin 0.
Proof.
  simpl. apply rnd_zero. apply Qeq_bool_iff. ring.
Qed.

Lemma computeEV_zero_midpoint (min max pPct : value) :
  (let '(mi, ma) := zero_as_missing (safeNum min) (safeNum max) in
   midpoint mi ma) = Fin 0 ->
  computeEV min max pPct = Fin 0.
Proof.
  unfold computeEV, product.
  destruct (zero_as_missing (safeNum min) (safeNum max)) as [mi ma].
  intros ->. destruct (fraction_finite pPct) as [r ->].
  now rewrite mul_zero_finite.
Qed.

Lemma fraction_default (pPct : value) :
  safeNum pPct = None -> fraction pPct = fraction (VNum (Fin 0)).
Proof. unfold fraction. now intros ->. Qed.

Lemma fraction_upper (pPct : value) (x : num) :
  safeNum pPct = Some x -> Num.ltb x (Fin 100) = false ->
  fraction pPct = fraction (VNum (Fin 100)).
Proof.
  intros E H. destruct (safeNum_finite _ _ E) as [q ->].
  unfold fraction. rewrite E, safeNum_VNum.
  unfold Num.min at 1. cbn [is_nan orb]. now rewrite H.
Qed.

Lemma fraction_lower (pPct : value) (x : num) :
  safeNum pPct = Some x -> Num.ltb (Fin 0) x = false ->
  fraction pPct = fraction (VNum (Fin 0)).
Proof.
  intros E H. destruct (safeNum_finite _ _ E) as [q ->].
  unfold fraction. rewrite E, safeNum_VNum.
  assert (Num.ltb (Fin q) (Fin 100) = true) as L.
  { apply ltb_Fin. apply ltb_Fin_false in H.
    now apply Qle_lt_trans with 0%Q. }
  unfold Num.min at 1. cbn [is_nan orb]. rewrite L.
  unfold Num.max at 1. cbn [is_nan orb]. now rewrite H.
Qed.

Lemma fraction_inside (pPct : value) (x : num) :
  safeNum pPct = Some x ->
  Num.ltb (Fin 0) x = true -> Num.ltb x (Fin 100) = true ->
  fraction pPct = div_lit x 100.
Proof.
  intros E H0 H100. destruct (safeNum_finite _ _ E) as [q ->].
  unfold fraction. rewrite E.
  unfold Num.min. cbn [is_nan orb]. rewrite H100.
  unfold Num.max. cbn [is_nan orb]. now rewrite H0.
Qed.

Lemma computeEV_fraction (min max p p' : value) :
  fraction p = fraction p' -> computeEV min max p = computeEV min max p'.
Proof. unfold computeEV, product. now intros ->. Qed.

(** C2, amended.  computeEV returns the product midpoint * fraction, as
    computed in binary64, rounded to the nearest integer, a tie going to the
    larger integer (Math.round): towards plus infinity, which is away from
    zero only when the product is not negative.  A product that is NaN or
    infinite is returned as it is.  computeEV(10, 11, 50) is 5. *)
Theorem computeEV_rounds_half_up :
  (forall min max pPct : value,
      match product min max pPct with
      | Fin q =>
          exists n : Z,
            computeEV min max pPct = Fin (inject_Z n)
            /\ Spec.nearest_ties_up q n
      | other => computeEV min max pPct = other
      end)
  /\ computeEV (VNum (Fin 10)) (VNum (Fin 11)) (VNum (Fin 50)) = Fin 5.
Proof.
  split; [|reflexivity].
  intros min max pPct. unfold computeEV.
  destruct (product min max pPct) as [| s | q]; try reflexivity.
  exists (Qfloor (q + (1 # 2))). split; [reflexivity|]. apply round_nearest.
Qed.

(** the product is the binary64 one: 50 * (29 / 100) is
    14.499999999999998 and not 14.5, and rounds to 14 *)
Lemma computeEV_binary64_product :
  product (VNum (Fin 50)) (VNum (Fin 50)) (VNum (Fin 29))
  = Fin (8162774324609023 # 562949953421312)
  /\ computeEV (VNum (Fin 50)) (VNum (Fin 50)) (VNum (Fin 29)) = Fin 14.
Proof. split; vm_compute; reflexivity. Qed.

(** C2 as stated fails: at (-5, -5, 50) the product is -2.5, which rounds
    to -3 when a tie goes away from zero, and computeEV returns -2. *)
Lemma computeEV_tie_not_away_from_zero :
  product (VNum (Fin (-5))) (VNum (Fin (-5))) (VNum (Fin 50)) = Fin (-5 # 2)
  /\ Spec.round_half_away (-5 # 2) = -3
  /\ computeEV (VNum (Fin (-5))) (VNum (Fin (-5))) (VNum (Fin 50)) = Fin (-2)
  /\ computeEV (VNum (Fin (-5))) (VNum (Fin (-5))) (VNum (Fin 50))
     <> Fin (inject_Z (Spec.round_half_away (-5 # 2))).
Proof.
  repeat split; try (vm_compute; reflexivity).
  vm_compute. discriminate.
Qed.

(** C4.  The code's zero-as-missing step is the rule of the specification:
    when exactly one of the two coerced bounds is zero and the other is
    strictly positive, the zero becomes null before the midpoint is taken,
    so that the result is the one for a missing bound; two zeros are left
    alone.  computeEV(0, 100, 50) = computeEV(100, 100, 50) = 50 and
    computeEV(0, 0, 50) = 0. *)
Theorem computeEV_zero_as_missing :
  (forall mi ma, zero_as_missing mi ma = Spec.zero_as_missing mi ma)
  /\ (forall (z x pPct : value) (zero pos : num),
         safeNum z = Some zero -> Num.eqb zero (Fin 0) = true ->
         safeNum x = Some pos -> Num.ltb (Fin 0) pos = true ->
         computeEV z x pPct = computeEV VUndefined x pPct
         /\ computeEV x z pPct = computeEV x VUndefined pPct
         /\ computeEV z x pPct = Num.round (mul pos (fraction pPct))
         /\ computeEV x z pPct = Num.round (mul pos (fraction pPct)))
  /\ zero_as_missing (Some (Fin 0)) (Some (Fin 0))
     = (Some (Fin 0), Some (Fin 0))
  /\ computeEV (VNum (Fin 0)) (VNum (Fin 100)) (VNum (Fin 50)) = Fin 50
  /\ computeEV (VNum (Fin 100)) (VNum (Fin 100)) (VNum (Fin 50)) = Fin 50
  /\ computeEV (VNum (Fin 0)) (VNum (Fin 0)) (VNum (Fin 50)) = Fin 0.
Proof.
  split; [exact zero_as_missing_spec|].
  split; [|repeat split; vm_compute; reflexivity].
  intros z x pPct zero pos Ez Hz Ex Hx.
  pose proof (positive_not_zero pos Hx) as Hnz.
  assert (Num.ltb (Fin 0) zero = false) as Hzp.
  { destruct (Num.ltb (Fin 0) zero) eqn:E; [|reflexivity].
    apply positive_not_zero in E. congruence. }
  unfold computeEV, product.
  rewrite !zero_as_missing_spec, Ez, Ex.
  change (safeNum VUndefined) with (@None num).
  unfold Spec.zero_as_missing. rewrite Hz, Hx, Hnz, Hzp. cbn [andb].
  repeat split; reflexivity.
Qed.

(** the rule at work on a zero lower bound and an upper bound of 100 *)
Lemma computeEV_zero_as_missing_witness :
  computeEV (VNum (Fin 0)) (VNum (Fin 100)) (VNum (Fin 50))
  = computeEV VUndefined (VNum (Fin 100)) (VNum (Fin 50)).
Proof.
  refine (proj1 (proj1 (proj2 computeEV_zero_as_missing)
                   (VNum (Fin 0)) (VNum (Fin 100)) (VNum (Fin 50))
                   (Fin 0) (Fin 100) _ _ _ _)); reflexivity.
Defined.

Lemma clamp_spec (q : Q) :
  Num.max (Fin 0) (Num.min (Fin 100) (Fin q)) = Spec.clamp (Fin q).
Proof.
  unfold Spec.clamp, Num.min. cbn [is_nan orb Num.leb Num.ltb].
  destruct (Qle_bool 100 q) eqn:E100; cbn [negb].
  - assert (Qle_bool q 0 = false) as ->; [|reflexivity].
    destruct (Qle_bool q 0) eqn:E0; [|reflexivity].
    apply Qle_bool_iff in E100, E0.
    now pose proof (Qle_trans _ _ _ E100 E0).
  - unfold Num.max. cbn [is_nan orb Num.ltb].
    now destruct (Qle_bool q 0).
Qed.

Lemma fraction_spec (pPct : value) :
  fraction pPct = Spec.likelihoodFraction pPct.
Proof.
  unfold fraction, Spec.likelihoodFraction.
  destruct (safeNum pPct) as [x|] eqn:E.
  - destruct (safeNum_finite _ _ E) as [q ->]. now rewrite clamp_spec.
  - now rewrite clamp_spec.
Qed.

(** C5.  The likelihood is coerced by safeNum, a missing or non-numeric one
    counting as 0, clamped to [0, 100] (one above 100 counts as 100, one
    below 0 as 0, one in between is kept) and divided by 100, and computeEV
    is the rounded product of the midpoint with that fraction.
    computeEV(100, 100, 150) = computeEV(100, 100, 100) = 100 and
    computeEV(100, 100, -20) = computeEV(100, 100, 0) = 0; a likelihood of
    50 halves the midpoint, and one that is undefined or the string "abc"
    gives 0. *)
Theorem computeEV_likelihood_clamped :
  (forall pPct : value, fraction pPct = Spec.likelihoodFraction pPct)
  /\ (forall min max pPct : value,
         safeNum pPct = None ->
         computeEV min max pPct = computeEV min max (VNum (Fin 0)))
  /\ (forall (min max pPct : value) (x : num),
         safeNum pPct = Some x -> Num.ltb x (Fin 100) = false ->
         computeEV min max pPct = computeEV min max (VNum (Fin 100)))
  /\ (forall (min max pPct : value) (x : num),
         safeNum pPct = Some x -> Num.ltb (Fin 0) x = false ->
         computeEV min max pPct = computeEV min max (VNum (Fin 0)))
  /\ (forall (pPct : value) (x : num),
         safeNum pPct = Some x ->
         Num.ltb (Fin 0) x = true -> Num.ltb x (Fin 100) = true ->
         fraction pPct = div_lit x 100)
  /\ fraction (VNum (Fin 100)) = Fin 1
  /\ fraction (VNum (Fin 0)) = Fin 0
  /\ fraction VNull = Fin 0
  /\ safeNum VUndefined = None
  /\ safeNum (VStr "abc") = None
  /\ computeEV (VNum (Fin 100)) (VNum (Fin 100)) (VNum (Fin 150))
     = computeEV (VNum (Fin 100)) (VNum (Fin 100)) (VNum (Fin 100))
  /\ computeEV (VNum (Fin 100)) (VNum (Fin 100)) (VNum (Fin (-20)))
     = computeEV (VNum (Fin 100)) (VNum (Fin 100)) (VNum (Fin 0))
  /\ computeEV (VNum (Fin 100)) (VNum (Fin 100)) (VNum (Fin 0)) = Fin 0
  /\ (forall min max pPct : value,
         computeEV min max pPct =
         Num.round
           (mul (midpoint
                   (fst (zero_as_missing (safeNum min) (safeNum max)))
                   (snd (zero_as_missing (safeNum min) (safeNum max))))
                (Spec.likelihoodFraction pPct)))
  /\ computeEV (VNum (Fin 100)) (VNum (Fin 100)) (VNum (Fin 150)) = Fin 100
  /\ computeEV (VNum (Fin 100)) (VNum (Fin 100)) (VNum (Fin 100)) = Fin 100
  /\ computeEV (VNum (Fin 100)) (VNum (Fin 100)) (VNum (Fin (-20))) = Fin 0
  /\ computeEV (VNum (Fin 100)) (VNum (Fin 100)) (VNum (Fin 50)) = Fin 50
  /\ computeEV (VNum (Fin 100)) (VNum (Fin 100)) VUndefined = Fin 0
  /\ computeEV (VNum (Fin 100)) (VNum (Fin 100)) (VStr "abc") = Fin 0.
Proof.
  split; [exact fraction_spec|].
  split.
  { intros min max pPct E. now apply computeEV_fraction, fraction_default. }
  split.
  { intros min max pPct x E H.
    now apply computeEV_fraction, fraction_upper with x. }
  split.
  { intros min max pPct x E H.
    now apply computeEV_fraction, fraction_lower with x. }
  split; [exact fraction_inside|].
  do 8 (split; [vm_compute; reflexivity|]).
  split; [|repeat split; vm_compute; reflexivity].
  intros min max pPct. unfold computeEV, product.
  rewrite <- fraction_spec.
  now destruct (zero_as_missing (safeNum min) (safeNum max)).
Qed.

(** a likelihood of 150 counts as 100 *)
Lemma computeEV_likelihood_clamped_witness :
  computeEV (VNum (Fin 7)) (VNum (Fin 9)) (VNum (Fin 150))
  = computeEV (VNum (Fin 7)) (VNum (Fin 9)) (VNum (Fin 100)).
Proof.
  refine (proj1 (proj2 (proj2 computeEV_likelihood_clamped))
            (VNum (Fin 7)) (VNum (Fin 9)) (VNum (Fin 150)) (Fin 150) _ _);
    reflexivity.
Defined.

(** C6.  After the zero-as-missing step the midpoint is (mi + ma) / 2 when
    both are non-null, the one that is non-null when exactly one is, and 0
    when both are null; and computeEV(null, null, p) is 0 for every p, as it
    is when both bounds are undefined. *)
Theorem computeEV_midpoint :
  (forall mi ma : option num, midpoint mi ma = Spec.midpoint mi ma)
  /\ (forall min max pPct : value,
         computeEV min max pPct =
         Num.round
           (mul (Spec.midpoint
                   (fst (zero_as_missing (safeNum min) (safeNum max)))
                   (snd (zero_as_missing (safeNum min) (safeNum max))))
                (fraction pPct)))
  /\ (forall pPct : value, computeEV VNull VNull pPct = Fin 0)
  /\ (forall pPct : value, computeEV VUndefined VUndefined pPct = Fin 0).
Proof.
  split; [exact midpoint_spec|].
  split.
  { intros min max pPct. unfold computeEV, product.
    destruct (zero_as_missing (safeNum min) (safeNum max)) as [mi ma].
    now rewrite midpoint_spec. }
  split; intros pPct; apply computeEV_zero_midpoint; reflexivity.
Qed.

Lemma Qplus_swap (a b : Q) : (a + b)%Q = (b + a)%Q.
Proof.
  unfold Qplus. f_equal; [ring | apply Pos.mul_comm].
Qed.

Lemma add_comm (x y : num) : add x y = add y x.
Proof.
  destruct x as [| s | a], y as [| t | b]; try reflexivity.
  - now destruct s, t.
  - cbn [add]. now rewrite Qplus_swap.
Qed.

Lemma zero_as_missing_swap (mi ma : option num) :
  zero_as_missing ma mi
  = (snd (zero_as_missing mi ma), fst (zero_as_missing mi ma)).
Proof.
  rewrite !zero_as_missing_spec. unfold Spec.zero_as_missing.
  destruct mi as [a|], ma as [b|]; try reflexivity.
  destruct (Num.eqb a (Fin 0)) eqn:Ea, (Num.ltb (Fin 0) b) eqn:Lb,
           (Num.eqb b (Fin 0)) eqn:Eb, (Num.ltb (Fin 0) a) eqn:La;
    cbn [andb fst snd]; try reflexivity.
  all: apply positive_not_zero in Lb; congruence.
Qed.

Lemma midpoint_swap (mi ma : option num) : midpoint ma mi = midpoint mi ma.
Proof.
  destruct mi as [a|], ma as [b|]; try reflexivity.
  cbn [midpoint]. now rewrite add_comm.
Qed.

(** X1.  computeEV is symmetric in its two bounds: exchanging min and max
    leaves the result, on every input. *)
Theorem computeEV_commutative (min max pPct : value) :
  computeEV max min pPct = computeEV min max pPct.
Proof.
  unfold computeEV, product.
  rewrite (zero_as_missing_swap (safeNum min) (safeNum max)).
  destruct (zero_as_missing (safeNum min) (safeNum max)) as [mi ma].
  cbn [fst snd]. now rewrite midpoint_swap.
Qed.

Lemma rne_nonneg (x : Q) : (0 <= x)%Q -> 0 <= rne x.
Proof.
  intros H. unfold rne.
  assert (0 <= Qfloor x) as F.
  { change 0 with (Qfloor 0). now apply Qfloor_resp_le. }
  destruct (Qcompare _ _); [destruct (Z.even _)| |]; lia.
Qed.

Lemma rnd_not_negative (q : Q) :
  (0 <= q)%Q -> Num.ltb (rnd q) (Fin 0) = false.
Proof.
  intros H. unfold rnd.
  destruct (Qeq_bool q 0) eqn:E0; [reflexivity|].
  assert (Qle_bool q 0 = false) as ->.
  { destruct (Qle_bool q 0) eqn:L; [|reflexivity].
    apply Qle_bool_iff in L. apply Qeq_bool_neq in E0.
    exfalso. apply E0. now apply Qle_antisym. }
  destruct (Qle_bool overflow_threshold (Qabs q)); [reflexivity|].
  apply ltb_Fin_false. rewrite Qred_correct.
  apply Qmult_le_0_compat.
  - change 0%Q with (inject_Z 0). rewrite <- Zle_Qle. apply rne_nonneg.
    apply Qmult_le_0_compat; [apply Qabs_nonneg|].
    apply Qinv_le_0_compat. now apply Qpower_0_le.
  - now apply Qpower_0_le.
Qed.

Lemma not_negative_Fin (q : Q) : not_negative (Fin q) <-> (0 <= q)%Q.
Proof. apply ltb_Fin_false. Qed.

Lemma add_not_negative (x y : num) :
  not_negative x -> not_negative y -> not_negative (add x y).
Proof.
  destruct x as [| s | a], y as [| t | b]; try (intros; reflexivity).
  - destruct s, t; unfold not_negative; cbn; congruence.
  - now intros H _.
  - now intros _ H.
  - intros Ha Hb. apply not_negative_Fin in Ha, Hb. cbn [add].
    apply rnd_not_negative.
    setoid_replace 0%Q with (0 + 0)%Q by ring. now apply Qplus_le_compat.
Qed.

Lemma div_lit_not_negative (x : num) (d : positive) :
  not_negative x -> not_negative (div_lit x d).
Proof.
  destruct x as [| s | a]; try (intros H; exact H).
  intros H. apply not_negative_Fin in H. cbn [div_lit].
  apply rnd_not_negative. apply Qmult_le_0_compat; [assumption|].
  apply Qinv_le_0_compat. discriminate.
Qed.

Lemma mul_not_negative (x y : num) :
  not_negative x -> not_negative y -> not_negative (mul x y).
Proof.
  destruct x as [| s | a], y as [| t | b]; try (intros; reflexivity).
  - destruct s, t; unfold not_negative; cbn; congruence.
  - intros Hs Hb. apply not_negative_Fin in Hb. cbn [mul].
    destruct (Qeq_bool b 0) eqn:E; [reflexivity|].
    destruct s; [discriminate Hs|].
    destruct (Qle_bool b 0) eqn:L; [|reflexivity].
    apply Qle_bool_iff in L. apply Qeq_bool_neq in E.
    exfalso. apply E. now apply Qle_antisym.
  - intros Ha Ht. apply not_negative_Fin in Ha. cbn [mul].
    destruct (Qeq_bool a 0) eqn:E; [reflexivity|].
    destruct t; [discriminate Ht|].
    destruct (Qle_bool a 0) eqn:L; [|reflexivity].
    apply Qle_bool_iff in L. apply Qeq_bool_neq in E.
    exfalso. apply E. now apply Qle_antisym.
  - intros Ha Hb. apply not_negative_Fin in Ha, Hb. cbn [mul].
    apply rnd_not_negative. now apply Qmult_le_0_compat.
Qed.

Lemma round_not_negative (x : num) :
  not_negative x -> not_negative (Num.round x).
Proof.
  destruct x as [| s | q]; try (intros H; exact H).
  intros H. apply not_negative_Fin in H. cbn [Num.round].
  apply not_negative_Fin. change 0%Q with (inject_Z 0). rewrite <- Zle_Qle.
  change 0 with (Qfloor 0). apply Qfloor_resp_le.
  setoid_replace 0%Q with (0 + 0)%Q by ring.
  apply Qplus_le_compat; [assumption | discriminate].
Qed.

Lemma fraction_not_negative (pPct : value) : not_negative (fraction pPct).
Proof.
  unfold fraction.
  assert (exists x, match safeNum pPct with Some x => x | None => Fin 0 end
                    = Fin x) as [x ->].
  { destruct (safeNum pPct) as [n|] eqn:E; [|now exists 0%Q].
    now apply safeNum_finite in E. }
  destruct (clamp_range x) as (c & -> & H0 & _).
  apply div_lit_not_negative. now apply not_negative_Fin.
Qed.

Lemma midpoint_not_negative (mi ma : option num) :
  bound_not_negative mi -> bound_not_negative ma ->
  not_negative (midpoint mi ma).
Proof.
  intros Hi Ha. rewrite midpoint_spec.
  destruct mi as [a|], ma as [b|]; cbn [Spec.midpoint].
  - now apply div_lit_not_negative, add_not_negative.
  - exact Hi.
  - exact Ha.
  - reflexivity.
Qed.

Lemma zero_as_missing_sub (mi ma : option num) (P : option num -> Prop) :
  P None -> P mi -> P ma ->
  P (fst (zero_as_missing mi ma)) /\ P (snd (zero_as_missing mi ma)).
Proof.
  intros HN Hi Ha. rewrite zero_as_missing_spec. unfold Spec.zero_as_missing.
  destruct mi as [a|], ma as [b|]; try now split.
  destruct (_ && _); [now split|]. destruct (_ && _); now split.
Qed.

(** X2.  When neither bound coerces to a negative number, computeEV does
    not return a negative number, whatever the likelihood: the value it
    returns is not below 0. *)
Theorem computeEV_not_negative (min max pPct : value) :
  bound_not_negative (safeNum min) ->
  bound_not_negative (safeNum max) ->
  Num.ltb (computeEV min max pPct) (Fin 0) = false.
Proof.
  intros Hi Ha. unfold computeEV, product.
  destruct (zero_as_missing_sub (safeNum min) (safeNum max)
              bound_not_negative) as [Hi' Ha']; try assumption.
  { exact I. }
  destruct (zero_as_missing (safeNum min) (safeNum max)) as [mi ma].
  apply round_not_negative, mul_not_negative.
  - now apply midpoint_not_negative.
  - apply fraction_not_negative.
Qed.

Lemma mul_finite_zero (a r : Q) : (r == 0)%Q -> mul (Fin a) (Fin r) = Fin 0.
Proof.
  intros H. cbn [mul]. apply rnd_zero. apply Qeq_bool_iff. rewrite H. ring.
Qed.

Lemma midpoint_not_nan (mi ma : option num) :
  (forall n, mi = Some n -> exists q, n = Fin q) ->
  (forall n, ma = Some n -> exists q, n = Fin q) ->
  midpoint mi ma <> NaN.
Proof.
  intros Hi Ha. rewrite midpoint_spec.
  destruct mi as [a|], ma as [b|]; cbn [Spec.midpoint].
  - destruct (Hi a eq_refl) as [qa ->]. destruct (Ha b eq_refl) as [qb ->].
    cbn [add]. unfold rnd.
    destruct (Qeq_bool _ 0); [cbn [div_lit]|destruct (Qle_bool _ _)];
      cbn [div_lit]; try discriminate.
    all: unfold rnd; destruct (Qeq_bool _ 0); try discriminate;
      destruct (Qle_bool _ _); discriminate.
  - destruct (Hi a eq_refl) as [qa ->]. discriminate.
  - destruct (Ha b eq_refl) as [qb ->]. discriminate.
  - discriminate.
Qed.

(** X3.  A likelihood that is missing, not numeric or at most 0 gives the
    expected value 0 whatever the bounds, as long as their midpoint is
    finite; when the sum of the bounds overflows the midpoint is infinite,
    the product Infinity * 0 is NaN and computeEV returns NaN. *)
Theorem computeEV_without_likelihood (min max pPct : value) :
  safeNum pPct = None
  \/ (exists x, safeNum pPct = Some x /\ Num.ltb (Fin 0) x = false) ->
  match (let '(mi, ma) := zero_as_missing (safeNum min) (safeNum max) in
         midpoint mi ma) with
  | Fin _ => computeEV min max pPct = Fin 0
  | _ => computeEV min max pPct = NaN
  end.
Proof.
  intros H.
  assert (fraction pPct = Fin 0) as F.
  { change (Fin 0) with (fraction (VNum (Fin 0))).
    destruct H as [H | (x & H & L)];
      [now apply fraction_default | now apply fraction_lower with x]. }
  unfold computeEV, product.
  pose proof (zero_as_missing_sub (safeNum min) (safeNum max)
                (fun o => forall n, o = Some n -> exists q, n = Fin q)) as Z.
  destruct Z as [Zi Za]; try (intros n E; now apply safeNum_finite in E).
  { intros n E. discriminate E. }
  destruct (zero_as_missing (safeNum min) (safeNum max)) as [mi ma].
  cbn [fst snd] in Zi, Za. rewrite F.
  pose proof (midpoint_not_nan mi ma Zi Za) as N.
  destruct (midpoint mi ma) as [| s | a]; [contradiction | reflexivity |].
  rewrite mul_finite_zero; reflexivity.
Qed.

Lemma safeNum_again (x : value) :
  safeNum (nullable (safeNum x))
  = match safeNum x with Some n => Some n | None => Some (Fin 0) end.
Proof.
  apply safeNum_nullable. intros n E. now apply safeNum_finite in E.
Qed.

Lemma fraction_again (pPct : value) :
  fraction (nullable (safeNum pPct)) = fraction pPct.
Proof.
  unfold fraction. rewrite safeNum_again. now destruct (safeNum pPct).
Qed.

Lemma product_missing_lower (b : num) (r : Q) :
  not_negative b -> (exists q, b = Fin q) ->
  (let '(mi, ma) := zero_as_missing (Some (Fin 0)) (Some b) in
   mul (midpoint mi ma) (Fin r))
  = (let '(mi, ma) := zero_as_missing None (Some b) in
     mul (midpoint mi ma) (Fin r)).
Proof.
  intros Hb [q ->]. rewrite !zero_as_missing_spec.
  unfold Spec.zero_as_missing.
  change (Num.eqb (Fin 0) (Fin 0)) with true.
  change (Num.ltb (Fin 0) (Fin 0)) with false.
  rewrite andb_false_r. cbn [andb].
  destruct (Num.ltb (Fin 0) (Fin q)) eqn:L; [reflexivity|].
  apply ltb_Fin_false in L. apply not_negative_Fin in Hb.
  assert (q == 0)%Q as Q0 by now apply Qle_antisym.
  rewrite !midpoint_spec. cbn [Spec.midpoint add].
  rewrite (rnd_zero (0 + q)) by (apply Qeq_bool_iff; rewrite Q0; ring).
  change (div_lit (Fin 0) 2) with (Fin 0).
  rewrite mul_zero_finite. cbn [mul]. symmetry. apply rnd_zero.
  apply Qeq_bool_iff. rewrite Q0. ring.
Qed.

Lemma computeEV_missing_lower (max pPct : value) :
  bound_not_negative (safeNum max) ->
  computeEV VNull max pPct = computeEV VUndefined max pPct.
Proof.
  intros Ha. unfold computeEV, product. f_equal.
  change (safeNum VNull) with (Some (Fin 0)).
  change (safeNum VUndefined) with (@None num).
  destruct (fraction_finite pPct) as [r ->].
  destruct (safeNum max) as [b|] eqn:E.
  - apply product_missing_lower; [exact Ha|].
    now apply safeNum_finite in E.
  - reflexivity.
Qed.

(** X4.  The handler coerces the three fields with safeNum (lines 104-106)
    and computeEV coerces them again (lines 29 and 35), which turns a null
    bound into 0.  When no bound is negative this changes nothing:
    computeEV of the coerced fields is computeEV of the fields. *)
Theorem computeEV_recoerced (min max pPct : value) :
  bound_not_negative (safeNum min) ->
  bound_not_negative (safeNum max) ->
  computeEV (nullable (safeNum min)) (nullable (safeNum max))
    (nullable (safeNum pPct))
  = computeEV min max pPct.
Proof.
  intros Hi Ha.
  rewrite (computeEV_fraction _ _ _ pPct (fraction_again pPct)).
  unfold computeEV, product. rewrite !safeNum_again.
  destruct (safeNum min) as [a|] eqn:Ea, (safeNum max) as [b|] eqn:Eb;
    try reflexivity; destruct (fraction_finite pPct) as [r ->]; f_equal.
  - rewrite (zero_as_missing_swap (Some (Fin 0)) (Some a)).
    rewrite (zero_as_missing_swap None (Some a)).
    pose proof (product_missing_lower a r Hi
                  (safeNum_finite _ _ Ea)) as P.
    destruct (zero_as_missing (Some (Fin 0)) (Some a)) as [x y].
    destruct (zero_as_missing None (Some a)) as [x' y'].
    cbn [fst snd]. now rewrite (midpoint_swap x y), (midpoint_swap x' y').
  - apply product_missing_lower; [exact Ha|].
    now apply safeNum_finite in Eb.
Qed.

(** with a negative upper bound the two differ: the missing lower bound
    counts as 0 once it is coerced again, and the result is halved *)
Lemma computeEV_recoerced_negative :
  computeEV VUndefined (VNum (Fin (-100))) (VNum (Fin 50)) = Fin (-50)
  /\ computeEV (nullable (safeNum VUndefined))
       (nullable (safeNum (VNum (Fin (-100)))))
       (nullable (safeNum (VNum (Fin 50)))) = Fin (-25).
Proof. split; vm_compute; reflexivity. Qed.

(** the sum of two bounds can overflow: the midpoint is then infinite and
    a likelihood of 0 gives NaN *)
Lemma computeEV_overflow :
  computeEV (VStr "1.7976931348623157e308") (VStr "1.7976931348623157e308")
    (VNum (Fin 0)) = NaN
  /\ computeEV (VStr "1.7976931348623157e308") (VStr "1.7976931348623157e308")
       (VNum (Fin 50)) = Inf false.
Proof. split; vm_compute; reflexivity. Qed.

(** ** Runs *)

Lemma run_bind {A B} (env : nat -> Wire) (p : Prog A) (f : A -> Prog B) :
  forall i,
    run env i (bind p f) =
    match run env i p with
    | (Ok a, t) =>
        let '(r, t') := run env (i + sent t) (f a) in (r, (t ++ t')%list)
    | (Raise e, t) => (Raise e, t)
    end.
Proof.
  induction p as [a | e | rq k IH | ms k IH]; intros i; cbn [bind run].
  - rewrite Nat.add_0_r. now destruct (run env i (f a)).
  - reflexivity.
  - rewrite IH. destruct (run env (S i) (k (env i))) as [[a | e] t].
    + cbn [sent Nat.add]. rewrite Nat.add_succ_r.
      now destruct (run env (S (i + sent t)) (f a)).
    + reflexivity.
  - rewrite IH. destruct (run env i k) as [[a | e] t].
    + cbn [sent]. now destruct (run env (i + sent t) (f a)).
    + reflexivity.
Qed.

Lemma run_try_catch {A} (env : nat -> Wire) (p : Prog A)
  (h : JsError -> Prog A) :
  forall i,
    run env i (try_catch p h) =
    match run env i p with
    | (Ok a, t) => (Ok a, t)
    | (Raise e, t) =>
        let '(r, t') := run env (i + sent t) (h e) in (r, (t ++ t')%list)
    end.
Proof.
  induction p as [a | e | rq k IH | ms k IH]; intros i; cbn [try_catch run].
  - reflexivity.
  - rewrite Nat.add_0_r. now destruct (run env i (h e)).
  - rewrite IH. destruct (run env (S i) (k (env i))) as [[a | e] t].
    + reflexivity.
    + cbn [sent Nat.add]. rewrite Nat.add_succ_r.
      now destruct (run env (S (i + sent t)) (h e)).
  - rewrite IH. destruct (run env i k) as [[a | e] t].
    + reflexivity.
    + cbn [sent]. now destruct (run env (i + sent t) (h e)).
Qed.

Lemma returns_run {A} (P : A -> Prop) (env : nat -> Wire) (p : Prog A) :
  returns P p -> forall i a t, run env i p = (Ok a, t) -> P a.
Proof.
  induction p as [a | e | rq k IH | ms k IH]; cbn [returns run];
    intros H i a' t E.
  - now injection E as <- _.
  - discriminate.
  - destruct (run env (S i) (k (env i))) as [r t'] eqn:R.
    injection E as -> _. now apply (IH (env i) (H (env i)) (S i) a' t').
  - destruct (run env i k) as [r t'] eqn:R.
    injection E as -> _. now apply (IH H i a' t').
Qed.

Lemma returns_bind {A B} (P : B -> Prop) (p : Prog A) (f : A -> Prog B) :
  (forall a, returns P (f a)) -> returns P (bind p f).
Proof.
  intros H. induction p as [a | e | rq k IH | ms k IH]; cbn [bind returns];
    auto.
Qed.

(** a handler that never throws answers on every run *)
Lemma try_catch_total {A} (env : nat -> Wire) (p : Prog A)
  (h : JsError -> A) :
  forall i,
  exists a t, run env i (try_catch p (fun e => Ret (h e))) = (Ok a, t).
Proof.
  intros i. rewrite run_try_catch.
  destruct (run env i p) as [[a | e] t]; cbn [run]; eauto.
Qed.

(** ** The HTTP client *)

Lemma settle_resolved (w : Wire) (r : Response) :
  settle w = Ret r ->
  w = Replied r /\ (status r = 0 \/ 200 <= status r < 300).
Proof.
  destruct w as [r' | msg]; cbn [settle]; [|discriminate].
  destruct (status r' =? 0) eqn:E0; cbn [orb].
  - intros H. injection H as <-. split; [reflexivity|]. left.
    now apply Z.eqb_eq.
  - unfold validateStatus.
    destruct ((200 <=? status r') && (status r' <? 300)) eqn:E; [|discriminate].
    intros H. injection H as <-. split; [reflexivity|]. right.
    apply andb_true_iff in E. destruct E as [E1 E2].
    apply Z.leb_le in E1. apply Z.ltb_lt in E2. lia.
Qed.

Lemma settle_rejected (r : Response) :
  status r <> 0 -> ~ (200 <= status r < 300) ->
  settle (Replied r) =
  Throw (mkError ("Request failed with status code "
                  ++ ToString (VNum (Fin (inject_Z (status r)))))
                 (Some r)).
Proof.
  intros H0 H. cbn [settle].
  destruct (status r =? 0) eqn:E0; [apply Z.eqb_eq in E0; contradiction|].
  unfold validateStatus.
  destruct ((200 <=? status r) && (status r <? 300)) eqn:E; [|reflexivity].
  apply andb_true_iff in E. destruct E as [E1 E2].
  apply Z.leb_le in E1. apply Z.ltb_lt in E2. lia.
Qed.

(** ** Conversions *)

Lemma converting_returns {A} (f : value -> A) (v : value) :
  converts v = true -> converting f v = Ok (f v).
Proof. unfold converting. now intros ->. Qed.

Lemma converting_throws {A} (f : value -> A) (v : value) :
  converts v = false ->
  converting f v = Raise (TypeError "Cannot convert object to primitive value").
Proof. unfold converting. now intros ->. Qed.

(** what the catch block answers to a TypeError *)
Lemma on_error_TypeError (msg : string) :
  on_error (TypeError msg)
  = mkRes 200 (VObj [("ok", VBool false);
                     ("error", VObj [("status", VNum (Fin 500));
                                     ("data", VStr msg)])]).
Proof. reflexivity. Qed.

(** ** The handler *)

Section HandlerProperties.

Context {runtime : Runtime}.

Lemma select_payload_present (outer payload : value) :
  select_payload outer = Ok payload -> nullish payload = false.
Proof.
  unfold select_payload.
  destruct (get outer "body") as [b|] eqn:Eb; cbn [rbind]; [|discriminate].
  destruct (get outer "data") as [d|] eqn:Ed; cbn [rbind]; [|discriminate].
  destruct (has_keys (coerceObj b)) as [[|]|] eqn:Hb;
    cbn [rbind]; [| |discriminate].
  - intros H. injection H as <-. now destruct (coerceObj b).
  - destruct (has_keys (coerceObj d)) as [[|]|] eqn:Hd;
      cbn [rbind]; [| |discriminate]; intros H; injection H as <-.
    + now destruct (coerceObj d).
    + now destruct outer.
Qed.

Lemma get_present (v : value) (k : string) :
  nullish v = false -> get v k = Ok (get_opt v k).
Proof. now destruct v. Qed.

Lemma resolve_listEntryId_spec (payload : value) :
  nullish payload = false ->
  resolve_listEntryId payload = String (Spec.identifier payload).
Proof.
  intros H. unfold resolve_listEntryId, Spec.identifier.
  rewrite !(get_present _ _ H).
  cbn [rbind Spec.first_present].
  destruct (nullish (get_opt payload "list_entry_id")); cbn [negb rbind];
    [|reflexivity].
  destruct (nullish (get_opt payload "listEntryId")); cbn [negb rbind];
    [|reflexivity].
  unfold coalesce.
  now destruct (nullish (get_opt (get_opt payload "data") "list_entry_id")).
Qed.

Lemma resolve_eventListId_spec (payload outer : value) :
  resolve_eventListId payload outer = Number (Spec.list_id payload outer).
Proof.
  unfold resolve_eventListId, listId_candidate, Spec.list_id, coalesce.
  cbn [Spec.first_present].
  destruct (nullish (get_opt (get_opt payload "field") "list_id"));
    [|reflexivity].
  destruct (nullish (get_opt payload "list_id")); [|reflexivity].
  now destruct (nullish (get_opt (get_opt outer "field") "list_id")).
Qed.

(** an envelope {type, body} around an object with keys resolves that
    object *)
Lemma select_payload_envelope (type : value) (props : list (string * value)) :
  props <> [] ->
  select_payload (VObj [("type", type); ("body", VObj props)])
  = Ok (VObj props).
Proof.
  intros Hne. unfold select_payload.
  assert (has_keys (VObj props) = Ok true) as Hk.
  { destruct props; [contradiction|reflexivity]. }
  cbn [get lookup String.eqb Ascii.eqb Bool.eqb rbind coerceObj truthy].
  now rewrite Hk.
Qed.

(** an object sent directly resolves itself when its own body and data
    fields hold nothing with keys *)
Lemma select_payload_direct (props : list (string * value)) :
  has_keys (coerceObj (lookup "body" props)) = Ok false ->
  has_keys (coerceObj (lookup "data" props)) = Ok false ->
  select_payload (VObj props) = Ok (VObj props).
Proof.
  intros Hb Hd. unfold select_payload. cbn [get rbind].
  rewrite Hb. cbn [rbind]. rewrite Hd. reflexivity.
Qed.

(** C3, amended.  The identifier of a normalized payload is String() of the
    first of list_entry_id, listEntryId and data.list_entry_id that is
    neither null nor undefined (an empty string included), or of the empty
    string when there is none: the string of that candidate when String()
    converts it, and a TypeError when it does not, as for {toString: 1}.
    An envelope {type, body} around a body with at least one key resolves
    that body as its payload, and the body sent directly resolves itself,
    hence the same identifier, provided its own body and data fields hold
    nothing with keys.  The body of the specification resolves to "42" both
    ways. *)
Theorem listEntryId_first_present :
  (forall outer payload : value,
      select_payload outer = Ok payload ->
      resolve_listEntryId payload =
      String
        (Spec.first_present
           [get_opt payload "list_entry_id";
            get_opt payload "listEntryId";
            get_opt (get_opt payload "data") "list_entry_id"]
           (VStr "")))
  /\ (forall v : value, converts v = true -> String v = Ok (ToString v))
  /\ (forall v : value,
         converts v = false ->
         String v = Raise (TypeError "Cannot convert object to primitive value"))
  /\ (forall (type : value) (props : list (string * value)),
         props <> [] ->
         select_payload (VObj [("type", type); ("body", VObj props)])
         = Ok (VObj props))
  /\ (forall props : list (string * value),
         has_keys (coerceObj (lookup "body" props)) = Ok false ->
         has_keys (coerceObj (lookup "data" props)) = Ok false ->
         select_payload (VObj props) = Ok (VObj props))
  /\ (forall (type : value) (props : list (string * value)),
         props <> [] ->
         has_keys (coerceObj (lookup "body" props)) = Ok false ->
         has_keys (coerceObj (lookup "data" props)) = Ok false ->
         (let? payload :=
            select_payload (VObj [("type", type); ("body", VObj props)]) in
          resolve_listEntryId payload)
         = (let? payload := select_payload (VObj props) in
            resolve_listEntryId payload))
  /\ select_payload Example.wrapped = Ok Example.direct
  /\ select_payload Example.direct = Ok Example.direct
  /\ resolve_listEntryId Example.direct = Ok "42"
  /\ resolve_listEntryId (VObj [("list_entry_id", VNum (Fin 215745884))])
     = Ok "215745884"
  /\ converts Example.unconvertible = false.
Proof.
  split.
  { intros outer payload H.
    apply (resolve_listEntryId_spec payload).
    now apply select_payload_present with outer. }
  split; [intros v; apply converting_returns|].
  split; [intros v; apply converting_throws|].
  split; [exact select_payload_envelope|].
  split; [exact select_payload_direct|].
  split.
  { intros type props Hne Hb Hd.
    now rewrite (select_payload_envelope type props Hne),
      (select_payload_direct props Hb Hd). }
  repeat split; vm_compute; reflexivity.
Qed.

Lemma sync_returns (token : option string) (listEntryId : string) :
  configured token = true -> returns (answer_ok token) (sync listEntryId).
Proof.
  intros C. unfold sync, answer_ok. rewrite C.
  do 6 (apply returns_bind; intros ?).
  unfold after_post, post_ev_failure, success.
  destruct (_ || _); [cbn [returns json code]; eauto|].
  apply returns_bind; intros ?. cbn [returns json code]. eauto.
Qed.

Lemma attempt_returns (token : option string) (req : Req) :
  returns (answer_ok token) (attempt token req).
Proof.
  unfold attempt.
  destruct (configured token) eqn:C; cbn [negb].
  - do 4 (apply returns_bind; intros ?).
    destruct (String.eqb _ "");
      [unfold answer_ok, no_list_entry_id; rewrite C;
       cbn [returns json code]; eauto|].
    destruct (negb _);
      [unfold answer_ok, different_list; rewrite C;
       cbn [returns json code]; eauto|].
    now apply sync_returns.
  - unfold answer_ok. rewrite C. cbn [returns json code]. eauto.
Qed.

(** the try block of a configured handler, once lines 57-96 have returned *)
Lemma attempt_resolved (token : option string) (req : Req)
  (outer payload : value) (listEntryId : string) (eventListId : num) :
  configured token = true ->
  read_outer req = Ok outer ->
  select_payload outer = Ok payload ->
  resolve_listEntryId payload = Ok listEntryId ->
  resolve_eventListId payload outer = Ok eventListId ->
  attempt token req =
  if String.eqb listEntryId "" then Ret (no_list_entry_id payload)
  else if negb (Num.eqb eventListId LIST_ID) then
    Ret (different_list eventListId)
  else sync listEntryId.
Proof.
  intros C Ho Hp Hi Hl. unfold attempt.
  rewrite C, Ho. cbn [negb lift bind]. rewrite Hp. cbn [lift bind].
  rewrite Hi. cbn [lift bind]. rewrite Hl. reflexivity.
Qed.

(** line 96 throws before the tests of lines 98 and 99 are reached *)
Lemma attempt_list_id_throws (token : option string) (req : Req)
  (outer payload : value) (listEntryId : string) (e : JsError) :
  configured token = true ->
  read_outer req = Ok outer ->
  select_payload outer = Ok payload ->
  resolve_listEntryId payload = Ok listEntryId ->
  resolve_eventListId payload outer = Raise e ->
  attempt token req = Throw e.
Proof.
  intros C Ho Hp Hi Hl. unfold attempt.
  rewrite C, Ho. cbn [negb lift bind]. rewrite Hp. cbn [lift bind].
  rewrite Hi. cbn [lift bind]. rewrite Hl. reflexivity.
Qed.

Lemma attempt_unconfigured (token : option string) (req : Req) :
  configured token = false ->
  attempt token req =
  Ret (mkRes 500 (VObj [("ok", VBool false);
                        ("error", VStr "Missing AFFINITY_V2_TOKEN")])).
Proof.
  intros C. unfold attempt.
  now rewrite C.
Qed.

(** C7.  On every request and whatever the remote side does, the handler
    answers (no exception leaves it) with a JSON object.  The status is 500
    when the credential is missing, the answer then being {ok:false,
    error:"Missing AFFINITY_V2_TOKEN"} without any outbound call, and 200 in
    every other case; and when the try block throws (a rejected outbound
    call included) the answer is {ok:false, error:{status, data}} with
    status 200. *)
Theorem handler_always_answers (token : option string) (req : Req)
  (env : nat -> Wire) :
  exists (res : Res) (t : list Event),
    run env 0 (handler token req) = (Ok res, t)
    /\ (exists props, json res = VObj props)
    /\ code res = (if configured token then 200 else 500)
    /\ (configured token = false ->
        res = mkRes 500 (VObj [("ok", VBool false);
                               ("error", VStr "Missing AFFINITY_V2_TOKEN")])
        /\ t = [])
    /\ (forall e t',
           run env 0 (attempt token req) = (Raise e, t') ->
           configured token = true
           /\ t = t'
           /\ res = on_error e
           /\ exists status data,
               res = mkRes 200
                       (VObj [("ok", VBool false);
                              ("error", VObj [("status", status);
                                              ("data", data)])])).
Proof.
  destruct (configured token) eqn:C.
  - unfold handler.
    destruct (try_catch_total env (attempt token req) on_error 0)
      as (res & t & E).
    exists res, t. split; [exact E|].
    rewrite run_try_catch in E.
    pose proof (attempt_returns token req) as R.
    unfold answer_ok in R. rewrite C in R.
    destruct (run env 0 (attempt token req)) as [[a | e] t0] eqn:Ea.
    + injection E as <- <-.
      destruct (returns_run _ env _ R 0 a t0 Ea) as [Hobj Hcode].
      repeat split; try assumption; discriminate.
    + cbn [run] in E. injection E as <- <-.
      split; [unfold on_error; cbn [json]; eauto|].
      split; [reflexivity|]. split; [discriminate|].
      intros e' t' H. injection H as <- <-.
      split; [reflexivity|]. split; [now rewrite app_nil_r|].
      split; [reflexivity|]. unfold on_error. eauto.
  - unfold handler. rewrite (attempt_unconfigured token req C).
    cbn [try_catch run]. do 2 eexists. split; [reflexivity|].
    cbn [json code]. split; [eauto|]. split; [reflexivity|].
    split; [now split|]. discriminate.
Qed.

Lemma run_handler_answer (token : option string) (req : Req)
  (env : nat -> Wire) (res : Res) :
  attempt token req = Ret res -> run env 0 (handler token req) = (Ok res, []).
Proof. unfold handler. now intros ->. Qed.

Lemma run_handler_caught (token : option string) (req : Req)
  (env : nat -> Wire) (e : JsError) :
  attempt token req = Throw e ->
  run env 0 (handler token req) = (Ok (on_error e), []).
Proof. unfold handler. now intros ->. Qed.

(** C8, amended.  With the credential configured, on a request whose body
    is decoded and unwrapped into a payload and whose identifier and list-id
    candidates String() and Number() convert (lines 57-96 throw nothing): a
    payload that resolves to no identifier (the empty string) is answered
    200 with {skipped:true, reason:"no_list_entry_id", payload}; one with an
    identifier and a list id other than the target is answered 200 with
    {skipped:true, reason:"different_list", eventListId}; neither issues an
    outbound call. *)
Theorem handler_skips (token : option string) (req : Req)
  (env : nat -> Wire) (outer payload : value) (listEntryId : string)
  (eventListId : num) :
  configured token = true ->
  read_outer req = Ok outer ->
  select_payload outer = Ok payload ->
  String (Spec.identifier payload) = Ok listEntryId ->
  Number (Spec.list_id payload outer) = Ok eventListId ->
  (listEntryId = "" ->
   run env 0 (handler token req) =
   (Ok (mkRes 200 (VObj [("skipped", VBool true);
                         ("reason", VStr "no_list_entry_id");
                         ("payload", payload)])), []))
  /\ (listEntryId <> "" ->
      Num.eqb eventListId LIST_ID = false ->
      run env 0 (handler token req) =
      (Ok (mkRes 200 (VObj [("skipped", VBool true);
                            ("reason", VStr "different_list");
                            ("eventListId", VNum eventListId)])), [])).
Proof.
  intros C Ho Hp Hi Hl.
  rewrite <- (resolve_listEntryId_spec payload
                (select_payload_present _ _ Hp)) in Hi.
  rewrite <- resolve_eventListId_spec in Hl.
  pose proof (attempt_resolved _ _ _ _ _ _ C Ho Hp Hi Hl) as E.
  split.
  - intros Hid. rewrite Hid in E. apply run_handler_answer. exact E.
  - intros Hid Hne. apply String.eqb_neq in Hid. rewrite Hid, Hne in E.
    apply run_handler_answer. exact E.
Qed.

Lemma run_sync_starts (listEntryId : string) (env : nat -> Wire) :
  exists r t,
    run env 0 (try_catch (sync listEntryId) (fun e => Ret (on_error e)))
    = (r, Sent (GET (fields_url listEntryId)) :: t).
Proof.
  unfold sync, V2.get. cbn [bind try_catch run].
  destruct (run env 1 _) as [r t]. eauto.
Qed.

(** C10, amended.  The list id a request carries (field.list_id or list_id
    of the payload, field.list_id of the outer object) is compared with the
    target after Number(): carried as the string "300305" it is the target,
    and the request goes on to the read of the entry; a value that Number()
    turns into NaN, as the string "abc" or an object without a toString
    field, is answered 200 with {skipped:true, reason:"different_list"} and
    no outbound call; a value that Number() cannot convert, as the object
    {toString: 1}, makes line 96 throw, and the catch block answers 200 with
    {ok:false, error:{status:500, data}} and no outbound call. *)
Theorem list_id_compared_as_number (token : option string) (req : Req)
  (env : nat -> Wire) (outer payload : value) (listEntryId : string) :
  configured token = true ->
  read_outer req = Ok outer ->
  select_payload outer = Ok payload ->
  String (Spec.identifier payload) = Ok listEntryId ->
  listEntryId <> "" ->
  (Spec.list_id payload outer = VStr "300305" ->
   attempt token req = sync listEntryId
   /\ exists r t,
       run env 0 (handler token req)
       = (r, Sent (GET (fields_url listEntryId)) :: t))
  /\ (converts (Spec.list_id payload outer) = true ->
      ToNumber (Spec.list_id payload outer) = NaN ->
      run env 0 (handler token req) =
      (Ok (mkRes 200 (VObj [("skipped", VBool true);
                            ("reason", VStr "different_list");
                            ("eventListId", VNum NaN)])), []))
  /\ (converts (Spec.list_id payload outer) = false ->
      run env 0 (handler token req) =
      (Ok (mkRes 200
             (VObj [("ok", VBool false);
                    ("error",
                     VObj [("status", VNum (Fin 500));
                           ("data",
                            VStr "Cannot convert object to primitive value")])
                   ])), []))
  /\ Number (VStr "300305") = Ok LIST_ID
  /\ Number (VStr "abc") = Ok NaN
  /\ Number (VObj []) = Ok NaN
  /\ Number Example.unconvertible
     = Raise (TypeError "Cannot convert object to primitive value").
Proof.
  intros C Ho Hp Hi Hid.
  rewrite <- (resolve_listEntryId_spec payload
                (select_payload_present _ _ Hp)) in Hi.
  apply String.eqb_neq in Hid.
  split; [|split; [|split; [|repeat split; vm_compute; reflexivity]]].
  - intros Hc.
    assert (resolve_eventListId payload outer = Ok LIST_ID) as Hl.
    { rewrite resolve_eventListId_spec, Hc. vm_compute. reflexivity. }
    pose proof (attempt_resolved _ _ _ _ _ _ C Ho Hp Hi Hl) as E.
    rewrite Hid in E.
    change (Num.eqb LIST_ID LIST_ID) with true in E. cbn [negb] in E.
    split; [exact E|].
    unfold handler. rewrite E. apply run_sync_starts.
  - intros Hc Hn.
    assert (resolve_eventListId payload outer = Ok NaN) as Hl.
    { rewrite resolve_eventListId_spec. unfold Number.
      rewrite (converting_returns _ _ Hc). now rewrite Hn. }
    pose proof (attempt_resolved _ _ _ _ _ _ C Ho Hp Hi Hl) as E.
    rewrite Hid in E. cbn [Num.eqb negb] in E.
    apply run_handler_answer. exact E.
  - intros Hc.
    rewrite <- on_error_TypeError. apply run_handler_caught.
    apply (attempt_list_id_throws _ _ _ _ _ _ C Ho Hp Hi).
    rewrite resolve_eventListId_spec. now apply converting_throws.
Qed.

End HandlerProperties.

(** ** The read-back loop *)

Lemma run_read_persisted (env : nat -> Wire) (i : nat) (url : string) :
  run env i (read_persisted url) = (reading env i url, [Sent (GET url)]).
Proof.
  unfold reading, read_persisted, V2.get. cbn [bind run].
  destruct (env i) as [r | msg]; cbn [settle]; [|reflexivity].
  destruct ((status r =? 0) || validateStatus (status r));
    cbn [bind run fst]; [|reflexivity].
  destruct (field_pairs (data r)) as [pairs | e]; cbn [lift bind run fst];
    [|reflexivity].
  now destruct (converting safeNum (Map_get pairs FID_EV)).
Qed.

(** a field that is there with the data null reads as 0, number and not
    null, and so ends the loop as any number does *)
Lemma reading_null_data (env : nat -> Wire) (i : nat) (url : string) :
  env i = Replied (mkResponse 200 (Example.fields VNull)) ->
  reading env i url = Ok (Some (Fin 0)).
Proof.
  unfold reading, read_persisted, V2.get. cbn [bind run]. now intros ->.
Qed.

Lemma verify_stops (url : string) (env : nat -> Wire) (v : num) :
  forall (j n i : nat) (iz : Z),
    (j < n)%nat ->
    (forall k, (k < j)%nat -> reading env (i + k) url = Ok None) ->
    reading env (i + j) url = Ok (Some v) ->
    run env i (verify url n iz None)
    = (Ok (Some v), (backoff url iz j ++ [Sent (GET url)])%list).
Proof.
  induction j as [|j IH]; intros n i iz Hn Hnone Hsome;
    (destruct n as [|n]; [lia|]); cbn [verify];
    rewrite run_bind, run_read_persisted.
  - rewrite Nat.add_0_r in Hsome. rewrite Hsome. reflexivity.
  - rewrite <- (Nat.add_0_r i) at 1. rewrite (Hnone 0%nat) by lia.
    cbn [sent sleep bind run backoff].
    rewrite (IH n (i + 1)%nat (iz + 1)).
    + reflexivity.
    + lia.
    + intros k Hk. replace (i + 1 + k)%nat with (i + S k)%nat by lia.
      apply Hnone. lia.
    + now replace (i + 1 + j)%nat with (i + S j)%nat by lia.
Qed.

Lemma verify_exhausts (url : string) (env : nat -> Wire) :
  forall (n i : nat) (iz : Z),
    (forall k, (k < n)%nat -> reading env (i + k) url = Ok None) ->
    run env i (verify url n iz None) = (Ok None, backoff url iz n).
Proof.
  induction n as [|n IH]; intros i iz Hnone; cbn [verify]; [reflexivity|].
  rewrite run_bind, run_read_persisted.
  rewrite <- (Nat.add_0_r i) at 1. rewrite (Hnone 0%nat) by lia.
  cbn [sent sleep bind run backoff].
  rewrite (IH (i + 1)%nat (iz + 1)); [reflexivity|].
  intros k Hk. replace (i + 1 + k)%nat with (i + S k)%nat by lia.
  apply Hnone. lia.
Qed.

Lemma verify_bounded (url : string) (env : nat -> Wire) :
  forall (n i : nat) (iz : Z) (persisted : option num),
    (sent (snd (run env i (verify url n iz persisted))) <= n)%nat.
Proof.
  induction n as [|n IH]; intros i iz persisted; cbn [verify];
    [cbn; lia|].
  rewrite run_bind, run_read_persisted.
  destruct (reading env i url) as [[v|]|e];
    cbn [sent sleep bind run snd app]; try lia.
  specialize (IH (i + 1)%nat (iz + 1) None).
  destruct (run env (i + 1) (verify url n (iz + 1) None)) as [r t].
  cbn [snd sent app] in *. lia.
Qed.

(** X11.  The loop as the code tests it, on the value safeNum makes of
    each read.  After a write answered with a 2xx status the handler reads the entry
    back at most 4 times.  It stops at the first read whose coerced value
    is not null, having paused 200 * 2^k ms after the k-th fruitless read,
    and answers 200 with that value as [persisted]; when all 4 reads give
    null it has paused 200, 400, 800 and 1600 ms and answers 200 with
    ok:true and persisted:null. *)
Theorem verification_bounded_backoff (env : nat -> Wire) (i : nat)
  (listEntryId : string) (min max p : option num) (ev : num)
  (post : Response) :
  200 <= status post < 300 ->
  let url := fields_url listEntryId in
  let outcome := run env i (after_post listEntryId min max p ev post) in
  (sent (snd outcome) <= 4)%nat
  /\ (forall (j : nat) (v : num),
         (j < 4)%nat ->
         (forall k, (k < j)%nat -> reading env (i + k) url = Ok None) ->
         reading env (i + j) url = Ok (Some v) ->
         outcome =
         (Ok (mkRes 200
                (VObj [("ok", VBool true); ("listEntryId", VStr listEntryId);
                       ("min", nullable min); ("max", nullable max);
                       ("p", nullable p); ("ev", VNum ev);
                       ("persisted", VNum v)])),
          (backoff url 0 j ++ [Sent (GET url)])%list))
  /\ ((forall k, (k < 4)%nat -> reading env (i + k) url = Ok None) ->
      outcome =
      (Ok (mkRes 200
             (VObj [("ok", VBool true); ("listEntryId", VStr listEntryId);
                    ("min", nullable min); ("max", nullable max);
                    ("p", nullable p); ("ev", VNum ev);
                    ("persisted", VNull)])),
       [Sent (GET url); Slept 200; Sent (GET url); Slept 400;
        Sent (GET url); Slept 800; Sent (GET url); Slept 1600])).
Proof.
  intros Hst url outcome. subst outcome. unfold after_post.
  assert ((status post <? 200) || (300 <=? status post) = false) as ->.
  { apply orb_false_iff. split; [apply Z.ltb_ge | apply Z.leb_gt]; lia. }
  fold url. rewrite run_bind. split; [|split].
  - pose proof (verify_bounded url env 4 i 0 None) as B.
    destruct (run env i (verify url 4 0 None)) as [[o | e] t];
      cbn [run snd] in *; [rewrite app_nil_r|]; exact B.
  - intros j v Hj Hnone Hsome.
    rewrite (verify_stops url env v j 4 i 0 Hj Hnone Hsome).
    cbn [run]. now rewrite app_nil_r.
  - intros Hnone. rewrite (verify_exhausts url env 4 i 0 Hnone).
    cbn [run]. reflexivity.
Qed.

(** C9, as the code has it.  The remote side accepts the write of 40000,
    shows the field with the data null on the first read-back and the
    written value from the second read-back on.  safeNum turns the null into
    the number 0, which is not null: the loop stops after this one read,
    without a pause and without the second read, and the handler answers
    ok:true with persisted:0, neither the null that was read nor the value
    that a retry would have seen. *)
Theorem read_back_null_ends_verification :
  run Example.env_null_then_visible 0
    (handler (runtime := Example.runtime) (Some "token") Example.req)
  = (Ok (mkRes 200
           (VObj [("ok", VBool true); ("listEntryId", VStr "215745884");
                  ("min", VNum (Fin 50000)); ("max", VNum (Fin 150000));
                  ("p", VNum (Fin 40)); ("ev", VNum (Fin 40000));
                  ("persisted", VNum (Fin 0))])),
     [Sent (GET Example.url);
      Sent (POST (Example.url ++ "/field-5305096")
              (VObj [("value", VObj [("type", VStr "number");
                                     ("data", VNum (Fin 40000))])]));
      Sent (GET Example.url)])
  /\ Example.env_null_then_visible 2
     = Replied (mkResponse 200 (Example.fields VNull))
  /\ Example.env_null_then_visible 3
     = Replied (mkResponse 200 (Example.fields (VNum (Fin 40000))))
  /\ reading Example.env_null_then_visible 2 Example.url = Ok (Some (Fin 0))
  /\ reading Example.env_null_then_visible 3 Example.url
     = Ok (Some (Fin 40000)).
Proof. repeat split; vm_compute; reflexivity. Qed.

(** ** The write *)

Lemma truthy_status (st : Z) :
  st <> 0 -> truthy (VNum (Fin (inject_Z st))) = true.
Proof.
  intros H. cbn [truthy is_nan orb Num.eqb].
  destruct (Qeq_bool (inject_Z st) 0) eqn:E; [|reflexivity].
  apply Qeq_bool_iff in E. unfold Qeq in E. cbn in E. lia.
Qed.

(** the client never hands a non-2xx answer of the remote side over to the
    test of line 114 (the status 0 of a response that has none apart) *)
Lemma post_resolves_valid (url : string) (payload : value) (env : nat -> Wire)
  (i : nat) (post : Response) (t : list Event) :
  run env i (V2.post url payload) = (Ok post, t) ->
  status post = 0 \/ 200 <= status post < 300.
Proof.
  unfold V2.post. cbn [run].
  destruct (settle (env i)) as [r | e | rq k | ms k] eqn:E; cbn [run];
    intros H; try discriminate.
  - injection H as <- _. now apply settle_resolved in E.
  - destruct (env i) as [r | msg]; cbn [settle] in E; [|discriminate].
    destruct (_ || _); discriminate.
  - destruct (env i) as [r | msg]; cbn [settle] in E; [|discriminate].
    destruct (_ || _); discriminate.
Qed.

(** what line 114 does with a non-2xx status, were it to see one *)
Lemma after_post_non_2xx (listEntryId : string) (min max p : option num)
  (ev : num) (post : Response) :
  ~ (200 <= status post < 300) ->
  after_post listEntryId min max p ev post
  = Ret (mkRes 200
           (VObj [("ok", VBool false); ("step", VStr "post_ev");
                  ("status", VNum (Fin (inject_Z (status post))));
                  ("data", data post);
                  ("listEntryId", VStr listEntryId);
                  ("min", nullable min); ("max", nullable max);
                  ("p", nullable p); ("ev", VNum ev)])).
Proof.
  intros H. unfold after_post.
  assert ((status post <? 200) || (300 <=? status post) = true) as ->;
    [|reflexivity].
  apply orb_true_iff.
  destruct (Z.ltb_spec (status post) 200); [now left|right].
  apply Z.leb_le. lia.
Qed.

(** a write that the remote side answers with a non-2xx status is rejected
    by the client, caught by the catch block and not sent again *)
Lemma sync_write_rejected (env : nat -> Wire) (listEntryId : string)
  (got r : Response) (fieldMap : list (string * value))
  (min max p : option num) :
  settle (env 0%nat) = Ret got ->
  field_pairs (data got) = Ok fieldMap ->
  converting safeNum (Map_get fieldMap FID_MIN) = Ok min ->
  converting safeNum (Map_get fieldMap FID_MAX) = Ok max ->
  converting safeNum (Map_get fieldMap FID_P) = Ok p ->
  env 1%nat = Replied r ->
  status r <> 0 -> ~ (200 <= status r < 300) ->
  run env 0 (try_catch (sync listEntryId) (fun e => Ret (on_error e)))
  = (Ok (mkRes 200
           (VObj [("ok", VBool false);
                  ("error",
                   VObj [("status", VNum (Fin (inject_Z (status r))));
                         ("data",
                          JS.or (data r)
                            (VStr ("Request failed with status code "
                                   ++ ToString
                                        (VNum (Fin (inject_Z (status r)))))))
                        ])])),
     [Sent (GET (fields_url listEntryId));
      Sent (POST (fields_url listEntryId ++ "/" ++ FID_EV)
              (VObj [("value",
                      VObj [("type", VStr "number");
                            ("data",
                             VNum (computeEV (nullable min) (nullable max)
                                     (nullable p)))])]))]).
Proof.
  intros Hget Hfields Hmin Hmax Hp Hpost H0 H2xx.
  unfold sync, V2.get, V2.post. cbn [bind try_catch run].
  rewrite Hget. cbn [bind lift]. rewrite Hfields. cbn [bind lift].
  rewrite Hmin. cbn [bind lift]. rewrite Hmax. cbn [bind lift].
  rewrite Hp. cbn [bind lift try_catch run].
  rewrite Hpost, (settle_rejected r H0 H2xx). cbn [bind try_catch run].
  unfold on_error. cbn [response message]. unfold JS.or at 1.
  rewrite (truthy_status _ H0). reflexivity.
Qed.

(** C1, as the code has it.  The remote side answers the read and then the
    write with status 500: the handler answers 200 and sends the write
    once, but the body is the one of the catch block, {ok:false,
    error:{status:500, data}}, without step:"post_ev". *)
Theorem write_failure_answered_by_catch :
  run Example.env_write_500 0
    (handler (runtime := Example.runtime) (Some "token") Example.req)
  = (Ok (mkRes 200
           (VObj [("ok", VBool false);
                  ("error",
                   VObj [("status", VNum (Fin 500));
                         ("data",
                          VObj [("message", VStr "Internal error")])])])),
     [Sent (GET Example.url);
      Sent (POST (Example.url ++ "/field-5305096")
              (VObj [("value", VObj [("type", VStr "number");
                                     ("data", VNum (Fin 40000))])]))]).
Proof. vm_compute. reflexivity. Qed.

(** ** Bounds and failures of the calls *)

Lemma within_weaken {A} (p : Prog A) :
  forall g q ms g' q' ms',
    (g <= g')%nat -> (q <= q')%nat -> ms <= ms' ->
    within g q ms p -> within g' q' ms' p.
Proof.
  induction p as [a | e | rq k IH | d k IH]; intros g q ms g' q' ms' Hg Hq Hm;
    cbn [within].
  - lia.
  - lia.
  - destruct rq as [url | url payload].
    + destruct g as [|g]; [contradiction|]. destruct g' as [|g']; [lia|].
      intros H w. apply (IH w g q ms); try lia. apply H.
    + destruct q as [|q]; [contradiction|]. destruct q' as [|q']; [lia|].
      intros H w. apply (IH w g q ms); try lia. apply H.
  - intros [Hd H]. split; [assumption|].
    apply (IH g q (ms - d)); try lia. exact H.
Qed.

Lemma within_bind {A B} (p : Prog A) (f : A -> Prog B) :
  forall g q ms g' q' ms',
    within g q ms p -> 0 <= ms' -> (forall a, within g' q' ms' (f a)) ->
    within (g + g') (q + q') (ms + ms') (bind p f).
Proof.
  induction p as [a | e | rq k IH | d k IH]; intros g q ms g' q' ms' Hp N Hf;
    cbn [within bind] in *.
  - apply (within_weaken (f a) g' q' ms'); try lia. apply Hf.
  - lia.
  - destruct rq as [url | url payload].
    + destruct g as [|g]; [contradiction|]. cbn [Nat.add].
      intros w. now apply IH.
    + destruct q as [|q]; [contradiction|]. cbn [Nat.add].
      intros w. now apply IH.
  - destruct Hp as [Hd Hp]. split; [assumption|].
    replace (ms + ms' - d) with ((ms - d) + ms') by lia. now apply IH.
Qed.

(** a step that neither sends nor pauses leaves the bounds of what
    follows *)
Lemma within_lift_bind {A B} (r : result A) (f : A -> Prog B)
  (g q : nat) (ms : Z) :
  0 <= ms -> (forall a, within g q ms (f a)) ->
  within g q ms (bind (lift r) f).
Proof.
  intros N H. destruct r as [a | e]; cbn [lift bind within]; [apply H|exact N].
Qed.

Lemma within_try_catch {A} (p : Prog A) (h : JsError -> A) :
  forall g q ms,
    within g q ms p -> within g q ms (try_catch p (fun e => Ret (h e))).
Proof.
  induction p as [a | e | rq k IH | d k IH]; intros g q ms;
    cbn [within try_catch]; trivial.
  - destruct rq as [url | url payload].
    + destruct g as [|g]; [contradiction|]. intros H w. now apply IH.
    + destruct q as [|q]; [contradiction|]. intros H w. now apply IH.
  - intros [Hd H]. split; [assumption|]. now apply IH.
Qed.

Lemma within_run {A} (env : nat -> Wire) (p : Prog A) :
  forall g q ms i,
    within g q ms p ->
    (gets (snd (run env i p)) <= g)%nat
    /\ (posts (snd (run env i p)) <= q)%nat
    /\ paused (snd (run env i p)) <= ms.
Proof.
  induction p as [a | e | rq k IH | d k IH]; intros g q ms i;
    cbn [within run].
  - cbn. lia.
  - cbn. lia.
  - destruct rq as [url | url payload].
    + destruct g as [|g]; [contradiction|]. intros H.
      specialize (IH (env i) g q ms (S i) (H _)).
      destruct (run env (S i) (k (env i))) as [r t]. cbn in *. lia.
    + destruct q as [|q]; [contradiction|]. intros H.
      specialize (IH (env i) g q ms (S i) (H _)).
      destruct (run env (S i) (k (env i))) as [r t]. cbn in *. lia.
  - intros [Hd H]. specialize (IH g q (ms - d) i H).
    destruct (run env i k) as [r t]. cbn in *. lia.
Qed.

Lemma within_settle (w : Wire) : within 0 0 0 (settle w).
Proof.
  destruct w as [r | msg]; cbn [settle]; [|cbn; lia].
  destruct (_ || _); cbn; lia.
Qed.

Lemma within_get (url : string) : within 1 0 0 (V2.get url).
Proof. unfold V2.get. cbn [within]. apply within_settle. Qed.

Lemma within_post (url : string) (payload : value) :
  within 0 1 0 (V2.post url payload).
Proof. unfold V2.post. cbn [within]. apply within_settle. Qed.

Lemma within_read_persisted (url : string) :
  within 1 0 0 (read_persisted url).
Proof.
  unfold read_persisted.
  apply (within_bind (V2.get url) _ 1 0 0 0 0 0); [apply within_get|lia|].
  intros r. apply within_lift_bind; [lia|]. intros pairs.
  destruct (converting safeNum _); cbn; lia.
Qed.

Lemma within_verify (url : string) :
  forall (n : nat) (i : Z) (persisted : option num),
    0 <= i ->
    within n 0 (200 * 2 ^ i * (2 ^ Z.of_nat n - 1))
      (verify url n i persisted).
Proof.
  induction n as [|n IH]; intros i persisted Hi; cbn [verify].
  - cbn. lia.
  - assert (0 < 2 ^ i) as P by (apply Z.pow_pos_nonneg; lia).
    assert (0 < 2 ^ Z.of_nat n) as Pn by (apply Z.pow_pos_nonneg; lia).
    assert (2 ^ Z.of_nat (S n) = 2 * 2 ^ Z.of_nat n) as E.
    { rewrite Nat2Z.inj_succ, Z.pow_succ_r; lia. }
    assert (2 ^ (i + 1) = 2 * 2 ^ i) as E'.
    { rewrite Z.pow_add_r; lia. }
    rewrite E. clear E. set (a := 2 ^ i) in *. set (b := 2 ^ Z.of_nat n) in *.
    apply (within_weaken _ (1 + n) (0 + 0) (0 + 200 * a * (2 * b - 1)));
      [lia | lia | lia |].
    apply within_bind; [apply within_read_persisted | nia |].
    intros [v|]; [cbn [within]; nia|].
    unfold sleep. cbn [bind within]. split; [nia|].
    apply (within_weaken _ n 0 (200 * 2 ^ (i + 1) * (b - 1)));
      [lia | lia | rewrite E'; fold a; nia | apply IH; lia].
Qed.

Lemma within_after_post (listEntryId : string) (min max p : option num)
  (ev : num) (post : Response) :
  within 4 0 3000 (after_post listEntryId min max p ev post).
Proof.
  unfold after_post. destruct (_ || _); [cbn; lia|].
  apply (within_weaken _ (4 + 0) (0 + 0) (3000 + 0)); [lia | lia | lia |].
  apply within_bind; [|lia|intros o; cbn; lia].
  apply (within_verify _ 4 0 None). lia.
Qed.

Lemma within_sync (listEntryId : string) : within 5 1 3000 (sync listEntryId).
Proof.
  unfold sync.
  apply (within_weaken _ (1 + 4) (0 + 1) (0 + 3000)); [lia | lia | lia |].
  apply within_bind; [apply within_get | lia |]. intros got.
  do 4 (apply within_lift_bind; [lia|]; intros ?).
  apply (within_weaken _ (0 + 4) (1 + 0) (0 + 3000)); [lia | lia | lia |].
  apply within_bind; [apply within_post | lia |]. intros post.
  apply within_after_post.
Qed.

Lemma run_sync_written (env : nat -> Wire) (listEntryId : string)
  (got : Response) (fieldMap : list (string * value))
  (min max p : option num) :
  settle (env 0%nat) = Ret got ->
  field_pairs (data got) = Ok fieldMap ->
  converting safeNum (Map_get fieldMap FID_MIN) = Ok min ->
  converting safeNum (Map_get fieldMap FID_MAX) = Ok max ->
  converting safeNum (Map_get fieldMap FID_P) = Ok p ->
  run env 0 (try_catch (sync listEntryId) (fun e => Ret (on_error e))) =
  (fst (run env 2
          (try_catch
             (let* post := settle (env 1%nat) in
              after_post listEntryId min max p
                (computeEV (nullable min) (nullable max) (nullable p)) post)
             (fun e => Ret (on_error e)))),
   Sent (GET (fields_url listEntryId))
   :: Sent (POST (fields_url listEntryId ++ "/" ++ FID_EV)
              (VObj [("value",
                      VObj [("type", VStr "number");
                            ("data",
                             VNum (computeEV (nullable min) (nullable max)
                                     (nullable p)))])]))
   :: snd (run env 2
             (try_catch
                (let* post := settle (env 1%nat) in
                 after_post listEntryId min max p
                   (computeEV (nullable min) (nullable max) (nullable p)) post)
                (fun e => Ret (on_error e))))).
Proof.
  intros Hget Hfields Hmin Hmax Hp. unfold sync, V2.get, V2.post.
  cbn [bind try_catch run]. rewrite Hget. cbn [bind lift].
  rewrite Hfields. cbn [bind lift]. rewrite Hmin. cbn [bind lift].
  rewrite Hmax. cbn [bind lift]. rewrite Hp. cbn [bind lift try_catch run].
  now destruct (run env 2 _).
Qed.

Lemma verify_throws (url : string) (env : nat -> Wire) (e : JsError) :
  forall (j n i : nat) (iz : Z),
    (j < n)%nat ->
    (forall k, (k < j)%nat -> reading env (i + k) url = Ok None) ->
    reading env (i + j) url = Raise e ->
    run env i (verify url n iz None)
    = (Raise e, (backoff url iz j ++ [Sent (GET url)])%list).
Proof.
  induction j as [|j IH]; intros n i iz Hn Hnone Hthrow;
    (destruct n as [|n]; [lia|]); cbn [verify];
    rewrite run_bind, run_read_persisted.
  - rewrite Nat.add_0_r in Hthrow. rewrite Hthrow. reflexivity.
  - rewrite <- (Nat.add_0_r i) at 1. rewrite (Hnone 0%nat) by lia.
    cbn [sent sleep bind run backoff].
    rewrite (IH n (i + 1)%nat (iz + 1)).
    + reflexivity.
    + lia.
    + intros k Hk. replace (i + 1 + k)%nat with (i + S k)%nat by lia.
      apply Hnone. lia.
    + now replace (i + 1 + j)%nat with (i + S j)%nat by lia.
Qed.

Section HandlerBounds.

Context {runtime : Runtime}.

Lemma within_attempt (token : option string) (req : Req) :
  within 5 1 3000 (attempt token req).
Proof.
  unfold attempt. destruct (negb _); [cbn; lia|].
  do 4 (apply within_lift_bind; [lia|]; intros ?).
  destruct (String.eqb _ ""); [cbn; lia|].
  destruct (negb _); [cbn; lia|]. apply within_sync.
Qed.

(** X5.  Whatever the request and whatever the remote side answers, a run
    of the handler sends at most 5 GET requests and 1 POST request and
    pauses at most 3000 ms in all. *)
Theorem handler_bounded (token : option string) (req : Req)
  (env : nat -> Wire) :
  (gets (snd (run env 0 (handler token req))) <= 5)%nat
  /\ (posts (snd (run env 0 (handler token req))) <= 1)%nat
  /\ paused (snd (run env 0 (handler token req))) <= 3000.
Proof.
  apply within_run. unfold handler. apply within_try_catch.
  apply within_attempt.
Qed.

Lemma attempt_front (token : option string) (req : Req) :
  configured token = true ->
  attempt token req =
  match front req with
  | Raise e => Throw e
  | Ok (payload, listEntryId, eventListId) =>
      if String.eqb listEntryId "" then Ret (no_list_entry_id payload)
      else if negb (Num.eqb eventListId LIST_ID) then
        Ret (different_list eventListId)
      else sync listEntryId
  end.
Proof.
  intros C. unfold attempt, front. rewrite C. cbn [negb].
  destruct (read_outer req) as [outer | e]; cbn [lift bind rbind];
    [|reflexivity].
  destruct (select_payload outer) as [payload | e]; cbn [lift bind rbind];
    [|reflexivity].
  destruct (resolve_listEntryId payload) as [listEntryId | e];
    cbn [lift bind rbind]; [|reflexivity].
  now destruct (resolve_eventListId payload outer) as [eventListId | e].
Qed.

(** X6.  With the credential configured the answer is decided by lines
    57-96: when one of them throws, the catch block answers and nothing is
    sent; otherwise the request is skipped without any call when the
    identifier is empty or the list id is not the target, and the entry is
    read and written (lines 101-127, inside the try block) when the
    identifier is not empty and the list id is the target. *)
Theorem handler_by_front (token : option string) (req : Req)
  (env : nat -> Wire) :
  configured token = true ->
  run env 0 (handler token req) =
  match front req with
  | Raise e => (Ok (on_error e), [])
  | Ok (payload, listEntryId, eventListId) =>
      if String.eqb listEntryId "" then (Ok (no_list_entry_id payload), [])
      else if Num.eqb eventListId LIST_ID then
        run env 0 (try_catch (sync listEntryId) (fun e => Ret (on_error e)))
      else (Ok (different_list eventListId), [])
  end.
Proof.
  intros C. unfold handler. rewrite (attempt_front token req C).
  destruct (front req) as [[[payload listEntryId] eventListId] | e];
    [|reflexivity].
  destruct (String.eqb listEntryId ""); [reflexivity|].
  now destruct (Num.eqb eventListId LIST_ID).
Qed.

Lemma front_malformed (hdrs : value) (s : string) (raw : result string) :
  converts (JS.or (get_opt hdrs "content-type") (VStr "")) = true ->
  s <> "" ->
  JSON_parse s = None ->
  front (mkReq hdrs (Parsed (VStr s)) raw) = Ok (VObj [], "", LIST_ID).
Proof.
  intros Hh Hs Hp. unfold front, read_outer. cbn [headers body].
  unfold String at 1. rewrite (converting_returns _ _ Hh). cbn [rbind].
  destruct s as [|c s']; [contradiction|].
  cbn [coerceObj]. rewrite Hp. reflexivity.
Qed.

(** X7.  A request body that is a text JSON.parse rejects is taken as the
    empty object (coerceObj catches the error) and the request is skipped
    with reason no_list_entry_id and the payload {}, without any call. *)
Theorem malformed_body_skipped (token : option string) (hdrs : value)
  (s : string) (raw : result string) (env : nat -> Wire) :
  configured token = true ->
  converts (JS.or (get_opt hdrs "content-type") (VStr "")) = true ->
  s <> "" ->
  JSON_parse s = None ->
  run env 0 (handler token (mkReq hdrs (Parsed (VStr s)) raw))
  = (Ok (mkRes 200 (VObj [("skipped", VBool true);
                          ("reason", VStr "no_list_entry_id");
                          ("payload", VObj [])])), []).
Proof.
  intros C Hh Hs Hp. unfold handler.
  rewrite (attempt_front token _ C), (front_malformed _ _ _ Hh Hs Hp).
  reflexivity.
Qed.

End HandlerBounds.

(** X8.  A read of the entry that fails ends the run after that one
    request, with the answer of the catch block and nothing written: a
    request without response (status 500 and the message of the error), a
    response with a status outside 200-299 (that status and the body of the
    response, or the message when the body is falsy), a body whose data is
    not a list of fields, and a field value that Number() cannot convert. *)
Theorem read_failure_stops (env : nat -> Wire) (listEntryId : string) :
  (forall msg, env 0%nat = Failed msg ->
     run env 0 (try_catch (sync listEntryId) (fun e => Ret (on_error e)))
     = (Ok (mkRes 200
              (VObj [("ok", VBool false);
                     ("error", VObj [("status", VNum (Fin 500));
                                     ("data", VStr msg)])])),
        [Sent (GET (fields_url listEntryId))]))
  /\ (forall r, env 0%nat = Replied r ->
        status r <> 0 -> ~ (200 <= status r < 300) ->
        run env 0 (try_catch (sync listEntryId) (fun e => Ret (on_error e)))
        = (Ok (mkRes 200
                 (VObj [("ok", VBool false);
                        ("error",
                         VObj [("status", VNum (Fin (inject_Z (status r))));
                               ("data",
                                JS.or (data r)
                                  (VStr ("Request failed with status code "
                                         ++ ToString
                                              (VNum
                                                 (Fin (inject_Z (status r)))))))
                              ])])),
           [Sent (GET (fields_url listEntryId))]))
  /\ (forall got e, settle (env 0%nat) = Ret got ->
        field_pairs (data got) = Raise e ->
        run env 0 (try_catch (sync listEntryId) (fun e => Ret (on_error e)))
        = (Ok (on_error e), [Sent (GET (fields_url listEntryId))]))
  /\ (forall got fieldMap, settle (env 0%nat) = Ret got ->
        field_pairs (data got) = Ok fieldMap ->
        converts (Map_get fieldMap FID_MIN)
        && converts (Map_get fieldMap FID_MAX)
        && converts (Map_get fieldMap FID_P) = false ->
        run env 0 (try_catch (sync listEntryId) (fun e => Ret (on_error e)))
        = (Ok (mkRes 200
                 (VObj [("ok", VBool false);
                        ("error",
                         VObj [("status", VNum (Fin 500));
                               ("data",
                                VStr "Cannot convert object to primitive value")
                              ])])),
           [Sent (GET (fields_url listEntryId))])).
Proof.
  unfold sync, V2.get. cbn [bind try_catch run].
  split; [|split; [|split]].
  - intros msg ->. cbn [settle bind try_catch run]. unfold on_error.
    cbn [response message]. reflexivity.
  - intros r -> H0 H. rewrite (settle_rejected r H0 H).
    cbn [bind try_catch run]. unfold on_error. cbn [response message].
    unfold JS.or at 1. now rewrite (truthy_status _ H0).
  - intros got e Hs Hf. rewrite Hs. cbn [bind lift]. rewrite Hf. reflexivity.
  - intros got fieldMap Hs Hf Hc. rewrite Hs. cbn [bind lift]. rewrite Hf.
    cbn [bind lift]. unfold converting.
    destruct (converts (Map_get fieldMap FID_MIN)); cbn [andb] in Hc;
      [|reflexivity].
    cbn [bind lift].
    destruct (converts (Map_get fieldMap FID_MAX)); cbn [andb] in Hc;
      [|reflexivity].
    cbn [bind lift]. rewrite Hc. reflexivity.
Qed.

(** X9.  Once the entry is read, the handler writes to the EV field of the
    entry the value computeEV of the min, max and likelihood fields as
    safeNum read them, whatever the EV field held, as the body
    {value:{type:"number", data}}; and it sends no other write. *)
Theorem sync_writes_computed_value (env : nat -> Wire) (listEntryId : string)
  (got : Response) (fieldMap : list (string * value))
  (min max p : option num) :
  settle (env 0%nat) = Ret got ->
  field_pairs (data got) = Ok fieldMap ->
  converting safeNum (Map_get fieldMap FID_MIN) = Ok min ->
  converting safeNum (Map_get fieldMap FID_MAX) = Ok max ->
  converting safeNum (Map_get fieldMap FID_P) = Ok p ->
  exists r t,
    run env 0 (try_catch (sync listEntryId) (fun e => Ret (on_error e)))
    = (r, Sent (GET (fields_url listEntryId))
          :: Sent (POST (fields_url listEntryId ++ "/" ++ FID_EV)
                     (VObj [("value",
                             VObj [("type", VStr "number");
                                   ("data",
                                    VNum (computeEV (nullable min)
                                            (nullable max) (nullable p)))])]))
          :: t)
    /\ posts t = 0%nat.
Proof.
  intros Hget Hfields Hmin Hmax Hp.
  rewrite (run_sync_written env listEntryId got fieldMap min max p
             Hget Hfields Hmin Hmax Hp).
  do 2 eexists. split.
  - reflexivity.
  - assert (within 4 0 3000
              (try_catch
                 (let* post := settle (env 1%nat) in
                  after_post listEntryId min max p
                    (computeEV (nullable min) (nullable max) (nullable p))
                    post)
                 (fun e => Ret (on_error e)))) as W.
    { apply within_try_catch.
      apply (within_bind (settle (env 1%nat)) _ 0 0 0 4 0 3000);
        [apply within_settle | lia | intros post; apply within_after_post]. }
    pose proof (within_run env _ 4 0 3000 2 W) as (_ & B & _). lia.
Qed.

(** X10.  A read-back that throws after an accepted write (the j-th, after
    fruitless ones and their pauses) ends the run with the answer of the
    catch block, {ok:false, error}, although the value was written: the
    trace holds the write, and no further request follows the failed read. *)
Theorem verification_failure_after_write (env : nat -> Wire)
  (listEntryId : string) (got post : Response)
  (fieldMap : list (string * value)) (min max p : option num)
  (j : nat) (e : JsError) :
  settle (env 0%nat) = Ret got ->
  field_pairs (data got) = Ok fieldMap ->
  converting safeNum (Map_get fieldMap FID_MIN) = Ok min ->
  converting safeNum (Map_get fieldMap FID_MAX) = Ok max ->
  converting safeNum (Map_get fieldMap FID_P) = Ok p ->
  env 1%nat = Replied post -> 200 <= status post < 300 ->
  (j < 4)%nat ->
  (forall k, (k < j)%nat ->
     reading env (2 + k) (fields_url listEntryId) = Ok None) ->
  reading env (2 + j) (fields_url listEntryId) = Raise e ->
  run env 0 (try_catch (sync listEntryId) (fun e => Ret (on_error e)))
  = (Ok (on_error e),
     Sent (GET (fields_url listEntryId))
     :: Sent (POST (fields_url listEntryId ++ "/" ++ FID_EV)
                (VObj [("value",
                        VObj [("type", VStr "number");
                              ("data",
                               VNum (computeEV (nullable min) (nullable max)
                                       (nullable p)))])]))
     :: (backoff (fields_url listEntryId) 0 j
         ++ [Sent (GET (fields_url listEntryId))])%list).
Proof.
  intros Hget Hfields Hmin Hmax Hp Hpost Hst Hj Hnone Hthrow.
  rewrite (run_sync_written env listEntryId got fieldMap min max p
             Hget Hfields Hmin Hmax Hp).
  rewrite Hpost. cbn [settle].
  assert ((status post =? 0) || validateStatus (status post) = true) as ->.
  { apply orb_true_iff. right. unfold validateStatus.
    apply andb_true_iff. split; [apply Z.leb_le | apply Z.ltb_lt]; lia. }
  cbn [bind]. unfold after_post.
  assert ((status post <? 200) || (300 <=? status post) = false) as ->.
  { apply orb_false_iff. split; [apply Z.ltb_ge | apply Z.leb_gt]; lia. }
  rewrite run_try_catch, run_bind.
  rewrite (verify_throws _ env e j 4 2 0 Hj Hnone Hthrow).
  cbn [run fst snd]. now rewrite app_nil_r.
Qed.

(** ** Instances *)

(** C3 as stated fails.  With list_entry_id the empty string and
    listEntryId "7" the first non-empty candidate is "7", and the code
    resolves the empty string.  The body {list_entry_id:"42", data:{x:1}}
    resolves "42" inside an envelope and, sent directly, the empty string,
    its data field being taken as the payload.  And the candidate
    {toString: 1} is not coerced to a string: String() throws. *)
Lemma listEntryId_resolution_differs :
  select_payload (runtime := Example.runtime) Example.empty_first
  = Ok Example.empty_first
  /\ resolve_listEntryId Example.empty_first = Ok ""
  /\ ToString
       (Spec.first_non_empty
          [get_opt Example.empty_first "list_entry_id";
           get_opt Example.empty_first "listEntryId";
           get_opt (get_opt Example.empty_first "data") "list_entry_id"]
          (VStr ""))
     = "7"
  /\ resolve_listEntryId Example.empty_first
     <> Ok (ToString
              (Spec.first_non_empty
                 [get_opt Example.empty_first "list_entry_id";
                  get_opt Example.empty_first "listEntryId";
                  get_opt (get_opt Example.empty_first "data") "list_entry_id"]
                 (VStr "")))
  /\ (let? payload :=
        select_payload (runtime := Example.runtime)
          Example.wrapped_with_data in
      resolve_listEntryId payload) = Ok "42"
  /\ select_payload (runtime := Example.runtime) Example.direct_with_data
     = Ok (VObj [("x", VNum (Fin 1))])
  /\ (let? payload :=
        select_payload (runtime := Example.runtime)
          Example.direct_with_data in
      resolve_listEntryId payload) = Ok ""
  /\ resolve_listEntryId (VObj [("list_entry_id", Example.unconvertible)])
     = Raise (TypeError "Cannot convert object to primitive value").
Proof.
  repeat split; try reflexivity. vm_compute. discriminate.
Qed.

(** the identifier of the wrapped body of the specification *)
Lemma listEntryId_first_present_witness :
  select_payload (runtime := Example.runtime) Example.wrapped
  = Ok Example.direct
  /\ select_payload (runtime := Example.runtime) Example.direct
     = Ok Example.direct
  /\ resolve_listEntryId Example.direct = Ok "42".
Proof.
  pose proof (listEntryId_first_present (runtime := Example.runtime))
    as (Hid & _ & _ & Henv & Hdir & _ & _).
  split; [apply Henv; discriminate|].
  split; [apply Hdir; reflexivity|].
  rewrite (Hid Example.wrapped Example.direct eq_refl). reflexivity.
Defined.

(** without the token the request of the README is answered 500 *)
Lemma handler_always_answers_witness :
  exists (res : Res) (t : list Event),
    run Example.env_never_visible 0
      (handler (runtime := Example.runtime) None Example.req) = (Ok res, t)
    /\ res = mkRes 500 (VObj [("ok", VBool false);
                              ("error", VStr "Missing AFFINITY_V2_TOKEN")])
    /\ t = [].
Proof.
  destruct (handler_always_answers (runtime := Example.runtime) None
              Example.req Example.env_never_visible)
    as (res & t & E & _ & _ & H & _).
  exists res, t. split; [exact E|]. apply H. reflexivity.
Defined.

(** C8 as stated fails.  The ping {ping:true, list_id:{toString: 1}} has no
    identifier, and Number() throws on its list id in line 96, before the
    test of line 98: the catch block answers {ok:false, error} where the
    claim has {skipped:true, reason:"no_list_entry_id"}.  The envelope
    {type:"x", body:"null"} has no identifier either, and Object.keys throws
    on its parsed body. *)
Lemma handler_error_without_identifier :
  read_outer (runtime := Example.runtime) Example.req_ping_unconvertible_list
  = Ok Example.ping_unconvertible_list
  /\ select_payload (runtime := Example.runtime)
       Example.ping_unconvertible_list
     = Ok Example.ping_unconvertible_list
  /\ resolve_listEntryId Example.ping_unconvertible_list = Ok ""
  /\ run Example.env_never_visible 0
       (handler (runtime := Example.runtime) (Some "token")
          Example.req_ping_unconvertible_list)
     = (Ok (mkRes 200
              (VObj [("ok", VBool false);
                     ("error",
                      VObj [("status", VNum (Fin 500));
                            ("data",
                             VStr "Cannot convert object to primitive value")])
                    ])), [])
  /\ run Example.env_never_visible 0
       (handler (runtime := Example.runtime) (Some "token")
          Example.req_ping_unconvertible_list)
     <> (Ok (mkRes 200 (VObj [("skipped", VBool true);
                              ("reason", VStr "no_list_entry_id");
                              ("payload", Example.ping_unconvertible_list)])),
         [])
  /\ read_outer (runtime := Example.runtime) Example.req_null_envelope
     = Ok Example.null_envelope
  /\ select_payload (runtime := Example.runtime) Example.null_envelope
     = Raise (TypeError "Cannot convert undefined or null to object")
  /\ run Example.env_never_visible 0
       (handler (runtime := Example.runtime) (Some "token")
          Example.req_null_envelope)
     = (Ok (mkRes 200
              (VObj [("ok", VBool false);
                     ("error",
                      VObj [("status", VNum (Fin 500));
                            ("data",
                             VStr "Cannot convert undefined or null to object")])
                    ])), []).
Proof.
  repeat split; try (vm_compute; reflexivity). vm_compute. discriminate.
Qed.

(** the ping of the README is skipped *)
Lemma handler_skips_witness :
  run Example.env_never_visible 0
    (handler (runtime := Example.runtime) (Some "token") Example.req_ping)
  = (Ok (mkRes 200 (VObj [("skipped", VBool true);
                          ("reason", VStr "no_list_entry_id");
                          ("payload", VObj [("ping", VBool true)])])), []).
Proof.
  refine (proj1 (handler_skips (runtime := Example.runtime) (Some "token")
                   Example.req_ping Example.env_never_visible
                   (VObj [("ping", VBool true)]) (VObj [("ping", VBool true)])
                   "" LIST_ID eq_refl eq_refl eq_refl eq_refl eq_refl)
            eq_refl).
Defined.

(** an event of list 7 and one whose list id is not a number are skipped *)
Lemma handler_skips_other_lists :
  run Example.env_never_visible 0
    (handler (runtime := Example.runtime) (Some "token")
       Example.req_other_list)
  = (Ok (mkRes 200 (VObj [("skipped", VBool true);
                          ("reason", VStr "different_list");
                          ("eventListId", VNum (Fin 7))])), [])
  /\ run Example.env_never_visible 0
       (handler (runtime := Example.runtime) (Some "token")
          Example.req_bad_list)
     = (Ok (mkRes 200 (VObj [("skipped", VBool true);
                             ("reason", VStr "different_list");
                             ("eventListId", VNum NaN)])), []).
Proof. split; vm_compute; reflexivity. Qed.

(** the scenario of the specification: min 50000, max 150000 and
    likelihood 40 give 40000, written once and seen on the first read-back *)
Lemma handler_end_to_end :
  run Example.env_visible_at_once 0
    (handler (runtime := Example.runtime) (Some "token") Example.req)
  = (Ok (mkRes 200
           (VObj [("ok", VBool true); ("listEntryId", VStr "215745884");
                  ("min", VNum (Fin 50000)); ("max", VNum (Fin 150000));
                  ("p", VNum (Fin 40)); ("ev", VNum (Fin 40000));
                  ("persisted", VNum (Fin 40000))])),
     [Sent (GET Example.url);
      Sent (POST (Example.url ++ "/field-5305096")
              (VObj [("value", VObj [("type", VStr "number");
                                     ("data", VNum (Fin 40000))])]));
      Sent (GET Example.url)]).
Proof. vm_compute. reflexivity. Qed.

(** a request body that is the JSON text null has no payload: the read of
    outer.body throws and the catch block answers *)
Lemma handler_null_body :
  run Example.env_never_visible 0
    (handler (runtime := Example.runtime) (Some "token")
       (mkReq (VObj []) (Parsed (VStr "null")) (Ok "")))
  = (Ok (mkRes 200
           (VObj [("ok", VBool false);
                  ("error",
                   VObj [("status", VNum (Fin 500));
                         ("data",
                          VStr ("Cannot read properties of null "
                                ++ "(reading 'body')"))])])),
     []).
Proof. vm_compute. reflexivity. Qed.

(** C10 as stated fails.  The list id {toString: 1} is not numeric, and the
    request that carries it is not skipped with reason different_list:
    Number() throws on it and the catch block answers {ok:false, error}. *)
Lemma list_id_unconvertible_is_an_error :
  read_outer (runtime := Example.runtime) Example.req_unconvertible_list
  = Ok (VObj [("list_entry_id", VStr "42");
              ("list_id", Example.unconvertible)])
  /\ select_payload (runtime := Example.runtime)
       (VObj [("list_entry_id", VStr "42");
              ("list_id", Example.unconvertible)])
     = Ok (VObj [("list_entry_id", VStr "42");
                 ("list_id", Example.unconvertible)])
  /\ resolve_listEntryId (VObj [("list_entry_id", VStr "42");
                                ("list_id", Example.unconvertible)])
     = Ok "42"
  /\ resolve_eventListId
       (VObj [("list_entry_id", VStr "42");
              ("list_id", Example.unconvertible)])
       (VObj [("list_entry_id", VStr "42");
              ("list_id", Example.unconvertible)])
     = Raise (TypeError "Cannot convert object to primitive value")
  /\ run Example.env_never_visible 0
       (handler (runtime := Example.runtime) (Some "token")
          Example.req_unconvertible_list)
     = (Ok (mkRes 200
              (VObj [("ok", VBool false);
                     ("error",
                      VObj [("status", VNum (Fin 500));
                            ("data",
                             VStr "Cannot convert object to primitive value")])
                    ])), [])
  /\ (forall eventListId : num,
         run Example.env_never_visible 0
           (handler (runtime := Example.runtime) (Some "token")
              Example.req_unconvertible_list)
         <> (Ok (mkRes 200 (VObj [("skipped", VBool true);
                                  ("reason", VStr "different_list");
                                  ("eventListId", VNum eventListId)])), [])).
Proof.
  repeat split; try (vm_compute; reflexivity).
  intros eventListId. vm_compute. discriminate.
Qed.

(** a list id given as the string "300305" lets the request through *)
Lemma list_id_compared_as_number_witness :
  exists r t,
    run Example.env_never_visible 0
      (handler (runtime := Example.runtime) (Some "token")
         Example.req_string_list)
    = (r, Sent (GET (fields_url "42")) :: t).
Proof.
  refine (proj2 (proj1
            (list_id_compared_as_number (runtime := Example.runtime)
               (Some "token") Example.req_string_list
               Example.env_never_visible
               (VObj [("list_entry_id", VStr "42");
                      ("list_id", VStr "300305")])
               (VObj [("list_entry_id", VStr "42");
                      ("list_id", VStr "300305")])
               "42" eq_refl eq_refl eq_refl eq_refl _) eq_refl)).
  discriminate.
Defined.

(** the value shows on the third read-back: two pauses, three reads *)
Lemma verification_bounded_backoff_witness :
  run Example.env_visible_late 2
    (after_post "215745884" (Some (Fin 50000)) (Some (Fin 150000))
       (Some (Fin 40)) (Fin 40000) (mkResponse 200 (VObj [])))
  = (Ok (mkRes 200
           (VObj [("ok", VBool true); ("listEntryId", VStr "215745884");
                  ("min", VNum (Fin 50000)); ("max", VNum (Fin 150000));
                  ("p", VNum (Fin 40)); ("ev", VNum (Fin 40000));
                  ("persisted", VNum (Fin 40000))])),
     [Sent (GET (fields_url "215745884")); Slept 200;
      Sent (GET (fields_url "215745884")); Slept 400;
      Sent (GET (fields_url "215745884"))]).
Proof.
  refine (proj1 (proj2
            (verification_bounded_backoff Example.env_visible_late 2
               "215745884" (Some (Fin 50000)) (Some (Fin 150000))
               (Some (Fin 40)) (Fin 40000) (mkResponse 200 (VObj [])) _))
            2%nat (Fin 40000) _ _ _).
  - cbn. lia.
  - lia.
  - intros k Hk. destruct k as [|[|k]]; [reflexivity | reflexivity | lia].
  - reflexivity.
Defined.

(** the entry of the specification has no negative field *)
Lemma computeEV_not_negative_witness :
  Num.ltb (computeEV (VNum (Fin 50000)) (VNum (Fin 150000)) (VNum (Fin 40)))
    (Fin 0) = false.
Proof. apply computeEV_not_negative; reflexivity. Defined.

(** the entry of the specification without its likelihood *)
Lemma computeEV_without_likelihood_witness :
  computeEV (VNum (Fin 50000)) (VNum (Fin 150000)) VUndefined = Fin 0.
Proof.
  exact (computeEV_without_likelihood (VNum (Fin 50000)) (VNum (Fin 150000))
           VUndefined (or_introl eq_refl)).
Defined.

(** a missing lower bound, an upper bound of 100 and the likelihood "50" *)
Lemma computeEV_recoerced_witness :
  computeEV (nullable (safeNum VUndefined))
    (nullable (safeNum (VNum (Fin 100)))) (nullable (safeNum (VStr "50")))
  = computeEV VUndefined (VNum (Fin 100)) (VStr "50").
Proof. apply computeEV_recoerced; [exact I | reflexivity]. Defined.

(** the envelope whose body is the JSON text null is answered by the
    catch block *)
Lemma handler_by_front_witness :
  run Example.env_never_visible 0
    (handler (runtime := Example.runtime) (Some "token")
       Example.req_null_envelope)
  = (Ok (on_error (TypeError "Cannot convert undefined or null to object")),
     []).
Proof.
  exact (handler_by_front (runtime := Example.runtime) (Some "token")
           Example.req_null_envelope Example.env_never_visible eq_refl).
Defined.

(** a text/plain body that is not JSON *)
Lemma malformed_body_skipped_witness :
  run Example.env_never_visible 0
    (handler (runtime := Example.runtime) (Some "token")
       Example.req_malformed)
  = (Ok (mkRes 200 (VObj [("skipped", VBool true);
                          ("reason", VStr "no_list_entry_id");
                          ("payload", VObj [])])), []).
Proof.
  refine (malformed_body_skipped (runtime := Example.runtime) (Some "token")
            (VObj [("content-type", VStr "text/plain")]) "{list_entry_id:"
            (Ok "") Example.env_never_visible eq_refl eq_refl _ eq_refl).
  discriminate.
Defined.

(** the first read times out *)
Lemma read_failure_stops_witness :
  run Example.env_read_timeout 0
    (try_catch (sync "215745884") (fun e => Ret (on_error e)))
  = (Ok (mkRes 200
           (VObj [("ok", VBool false);
                  ("error", VObj [("status", VNum (Fin 500));
                                  ("data",
                                   VStr "timeout of 30000ms exceeded")])])),
     [Sent (GET (fields_url "215745884"))]).
Proof.
  exact (proj1 (read_failure_stops Example.env_read_timeout "215745884")
           _ eq_refl).
Defined.

(** the entry of the specification: 40000 is written, once *)
Lemma sync_writes_computed_value_witness :
  exists r t,
    run Example.env_visible_at_once 0
      (try_catch (sync "215745884") (fun e => Ret (on_error e)))
    = (r, Sent (GET (fields_url "215745884"))
          :: Sent (POST (fields_url "215745884" ++ "/" ++ FID_EV)
                     (VObj [("value",
                             VObj [("type", VStr "number");
                                   ("data", VNum (Fin 40000))])]))
          :: t)
    /\ posts t = 0%nat.
Proof.
  exact (sync_writes_computed_value Example.env_visible_at_once "215745884"
           (mkResponse 200 Example.fields_without_ev)
           [(FID_MIN, VNum (Fin 50000)); (FID_MAX, VNum (Fin 150000));
            (FID_P, VNum (Fin 40))]
           (Some (Fin 50000)) (Some (Fin 150000)) (Some (Fin 40))
           eq_refl eq_refl eq_refl eq_refl eq_refl).
Defined.

(** the write is accepted, the first read-back does not show the value
    and the second times out *)
Lemma verification_failure_after_write_witness :
  run Example.env_read_back_timeout 0
    (try_catch (sync "215745884") (fun e => Ret (on_error e)))
  = (Ok (on_error (mkError "timeout of 30000ms exceeded" None)),
     [Sent (GET (fields_url "215745884"));
      Sent (POST (fields_url "215745884" ++ "/" ++ FID_EV)
              (VObj [("value", VObj [("type", VStr "number");
                                     ("data", VNum (Fin 40000))])]));
      Sent (GET (fields_url "215745884")); Slept 200;
      Sent (GET (fields_url "215745884"))]).
Proof.
  refine (verification_failure_after_write Example.env_read_back_timeout
            "215745884" (mkResponse 200 Example.fields_without_ev)
            (mkResponse 200 (VObj []))
            [(FID_MIN, VNum (Fin 50000)); (FID_MAX, VNum (Fin 150000));
             (FID_P, VNum (Fin 40))]
            (Some (Fin 50000)) (Some (Fin 150000)) (Some (Fin 40))
            1%nat (mkError "timeout of 30000ms exceeded" None)
            eq_refl eq_refl eq_refl eq_refl eq_refl eq_refl _ _ _ eq_refl).
  - cbn. lia.
  - lia.
  - intros k Hk. destruct k as [|k]; [reflexivity | lia].
Defined.
